(** * The data-fetching demos and the theme context of the React demo app

    Shallow embedding of
    - [useAxiosFetch] and [loadWithFetch] (ReactBackendExample.tsx), and
    - [useTheme] / [ThemeProvider] (ReactContextReduxExample.tsx),
    with the properties of the request life cycle that the design
    document states about them. *)

From Stdlib Require Import String NArith DecimalString DecimalN Lia.
From stdpp Require Import base option gmap.

Local Open Scope string_scope.

(* ===================================================================== *)
(** * JavaScript values that can be thrown, and settled promises *)
(* ===================================================================== *)

Module Js.

(** What a [catch (err)] clause may receive.  [err instanceof Error]
    holds exactly for [ErrorObject]; everything else a program can
    throw (a string, a number, a plain object, ...) is [OtherValue]. *)
Inductive Thrown : Type :=
| ErrorObject (message : string)
| OtherValue (shown : string).

Definition instanceofError (err : Thrown) : bool :=
  match err with
  | ErrorObject _ => true
  | OtherValue _ => false
  end.

(** [err.message], read only after [instanceofError err] held. *)
Definition messageOf (err : Thrown) : string :=
  match err with
  | ErrorObject m => m
  | OtherValue _ => ""
  end.

(** The outcome of a promise that has settled. *)
Inductive Settled (A : Type) : Type :=
| Fulfilled (a : A)
| Rejected (err : Thrown).
Arguments Fulfilled {A} a.
Arguments Rejected {A} err.

(** How a block of statements ends. *)
Inductive Completion (A : Type) : Type :=
| Normal (a : A)
| Throw (err : Thrown).
Arguments Normal {A} a.
Arguments Throw {A} err.

(** Statements over a store [S]: the store is threaded through and a
    [throw] skips the rest of the block. *)
Definition Stmt (S A : Type) : Type := S -> S * Completion A.

#[export] Instance stmt_ret {S} : MRet (Stmt S) :=
  fun A a s => (s, Normal a).

#[export] Instance stmt_bind {S} : MBind (Stmt S) :=
  fun A B k m s =>
    match m s with
    | (s1, Normal a) => k a s1
    | (s1, Throw err) => (s1, Throw err)
    end.

Definition throw {S A} (err : Thrown) : Stmt S A :=
  fun s => (s, Throw err).

(** [await p] for a promise that has settled with [p]: the value of a
    fulfilled promise, a [throw] of the reason of a rejected one. *)
Definition await {S A} (p : Settled A) : Stmt S A :=
  match p with
  | Fulfilled a => mret a
  | Rejected err => throw err
  end.

(** [try { body } catch (err) { handler err } finally { fin }].
    The handler runs only when the body throws; [fin] runs on every
    path; a throw of [fin] replaces the completion reached before
    it. *)
Definition try_catch_finally {S A}
    (body : Stmt S A) (handler : Thrown -> Stmt S A) (fin : Stmt S unit)
  : Stmt S A :=
  fun s =>
    let '(s1, c1) := body s in
    let '(s2, c2) :=
      match c1 with
      | Normal a => (s1, Normal a)
      | Throw err => handler err s1
      end in
    let '(s3, c3) := fin s2 in
    match c3 with
    | Normal _ => (s3, c2)
    | Throw err => (s3, Throw err)
    end.

(** The store a block leaves behind, and how it ended. *)
Definition exec {S A} (m : Stmt S A) (s : S) : S := fst (m s).
Definition completion {S A} (m : Stmt S A) (s : S) : Completion A := snd (m s).

(** An [async] function with one suspension point: the statements up
    to the [await], the request the awaited promise stands for, and
    the statements that run once that promise has settled. *)
Record Async (S Req Resp : Type) : Type := {
  before_await : Stmt S unit;
  request : Req;
  after_await : Settled Resp -> Stmt S unit
}.
Arguments before_await {S Req Resp} _.
Arguments request {S Req Resp} _.
Arguments after_await {S Req Resp} _ _.

End Js.

(* ===================================================================== *)
(** * React state cells *)
(* ===================================================================== *)

Module React.
Import Js.

(** A component instance: the cells its [useState] calls own, and
    whether the instance is still mounted.

    The setter returned by [useState] is React's, not the
    repository's.  With the [createRoot] API used in index.tsx an
    update requested for an instance that has been unmounted is
    dropped; updates requested in one turn of the event loop are
    applied together before the next render. *)
Record Fiber (C : Type) : Type := {
  mounted : bool;
  cells : C
}.
Arguments mounted {C} _.
Arguments cells {C} _.

Definition dispatch {C} (update : C -> C) : Stmt (Fiber C) unit :=
  fun f =>
    (if mounted f then {| mounted := true; cells := update (cells f) |} else f,
     Normal tt).

Definition mount {C} (initial : C) : Fiber C :=
  {| mounted := true; cells := initial |}.

Definition unmount {C} (f : Fiber C) : Fiber C :=
  {| mounted := false; cells := cells f |}.

End React.

(* ===================================================================== *)
(** * The view of a resource that the design document speaks of *)
(* ===================================================================== *)

Module Resource.

Inductive Status : Type := Idle | Loading | Succeeded | Failed.

#[export] Instance status_eq_dec : EqDecision Status.
Proof. solve_decision. Defined.

(** What [observe] hands to a consumer. *)
Record View (T : Type) : Type := {
  value : option T;
  status : Status;
  error : option string
}.
Arguments value {T} _.
Arguments status {T} _.
Arguments error {T} _.

(** The hooks keep no status cell.  A consumer reads the phase off the
    three cells, in the order in which the JSX of the demo tests them:
    the loading flag first, then the error, then the data. *)
Definition phase {T} (value : option T) (loading : bool) (err : option string)
  : Status :=
  if loading then Loading
  else if err is Some _ then Failed
  else if value is Some _ then Succeeded
  else Idle.

Definition view {T} (value : option T) (loading : bool) (err : option string)
  : View T :=
  {| value := value; status := phase value loading err; error := err |}.

End Resource.

(* ===================================================================== *)
(** * useAxiosFetch *)
(* ===================================================================== *)

Module AxiosFetch.
Import Js React.

(** The part of an axios response the hook reads. *)
Record AxiosResponse (T : Type) : Type := {
  response_data : T;
  response_status : N
}.
Arguments response_data {T} _.
Arguments response_status {T} _.

(** The three [useState] cells of the hook. *)
Record Cells (T : Type) : Type := {
  data : option T;
  isLoading : bool;
  error : option string
}.
Arguments data {T} _.
Arguments isLoading {T} _.
Arguments error {T} _.

(** A call of [fetchData] whose request has not settled yet is
    identified by its number in the order of the calls. *)
Inductive Event (T : Type) : Type :=
| Call (url : string)
    (* fetchData(): the effect after mount or after a change of
       url, or refetch() *)
| Settle (attempt : nat) (outcome : Settled (AxiosResponse T))
    (* the promise of axios.get of that call settles *)
| Unmount.
Arguments Call {T} url.
Arguments Settle {T} attempt outcome.
Arguments Unmount {T}.

(** An instance of the hook together with the requests it has issued
    that are still on their way. *)
Record Hook (T : Type) : Type := {
  fiber : Fiber (Cells T);
  inflight : gmap nat string;
  issued : nat
}.
Arguments fiber {T} _.
Arguments inflight {T} _.
Arguments issued {T} _.

Section WithPayload.
Context {T : Type}.

Definition initialCells : Cells T :=
  {| data := None; isLoading := false; error := None |}.

Definition setData (v : option T) : Stmt (Fiber (Cells T)) unit :=
  dispatch (fun c => {| data := v; isLoading := isLoading c; error := error c |}).

Definition setIsLoading (b : bool) : Stmt (Fiber (Cells T)) unit :=
  dispatch (fun c => {| data := data c; isLoading := b; error := error c |}).

Definition setError (e : option string) : Stmt (Fiber (Cells T)) unit :=
  dispatch (fun c => {| data := data c; isLoading := isLoading c; error := e |}).

Definition fetchData (url : string)
  : Async (Fiber (Cells T)) string (AxiosResponse T) :=
  {| before_await :=
       setIsLoading true;;
       setError None;
     request := url;
     after_await := fun settled =>
       try_catch_finally
         (response ← await settled;
          setData (Some (response_data response)))
         (fun err =>
            let message :=
              if instanceofError err then messageOf err
              else "Unbekannter Fehler" in
            setError (Some message);;
            setData None)
         (setIsLoading false) |}.

(** The first render, before its effect has run. *)
Definition useAxiosFetch : Hook T :=
  {| fiber := mount initialCells; inflight := ∅; issued := 0 |}.

Definition step (h : Hook T) (ev : Event T) : option (Hook T) :=
  match ev with
  | Call url =>
      let job := fetchData url in
      Some {| fiber := exec (before_await job) (fiber h);
              inflight := <[issued h := request job]> (inflight h);
              issued := S (issued h) |}
  | Settle attempt outcome =>
      url ← inflight h !! attempt;
      Some {| fiber := exec (after_await (fetchData url) outcome) (fiber h);
              inflight := delete attempt (inflight h);
              issued := issued h |}
  | Unmount =>
      Some {| fiber := unmount (fiber h);
              inflight := inflight h;
              issued := issued h |}
  end.

Fixpoint run (h : Hook T) (evs : list (Event T)) : option (Hook T) :=
  match evs with
  | [] => Some h
  | ev :: evs' => h' ← step h ev; run h' evs'
  end.

(** What the hook returns to the component that uses it. *)
Definition returned (h : Hook T) : Cells T := cells (fiber h).

(** [observe] of the design document on the state of the hook. *)
Definition observe (h : Hook T) : Resource.View T :=
  let c := returned h in
  Resource.view (data c) (isLoading c) (error c).

(** The button of the demo that calls [refetch] is disabled while
    the loading flag is set. *)
Definition refetchButtonDisabled (h : Hook T) : bool :=
  isLoading (returned h).

End WithPayload.

Arguments useAxiosFetch : clear implicits.

(** What the section of the demo that uses the hook puts on the screen
    below its button.  In a JSX condition a string counts as true unless
    it is empty, and a payload object counts as true. *)
Inductive Shown (T : Type) : Type :=
| LoadingNote
| ErrorNote (message : string)
| ApodCard (apod : T)
| NoDataNote.
Arguments LoadingNote {T}.
Arguments ErrorNote {T} message.
Arguments ApodCard {T} apod.
Arguments NoDataNote {T}.

Definition truthy (s : option string) : bool :=
  match s with
  | Some text => negb (String.eqb text "")
  | None => false
  end.

Definition rendered {T} (c : Cells T) : list (Shown T) :=
  (if isLoading c then [LoadingNote] else [])
  ++ (if truthy (error c) then [ErrorNote (default "" (error c))] else [])
  ++ (if negb (isLoading c) && negb (truthy (error c))
      then match data c with
           | Some apod => [ApodCard apod]
           | None => [NoDataNote]
           end
      else []).

(** The message the hook stores for a rejection [err]. *)
Definition shownMessage (err : Thrown) : string :=
  if instanceofError err then messageOf err else "Unbekannter Fehler".

(** The cell contents that correspond to an outcome: the payload of a
    fulfilled request, nothing for a rejected one. *)
Definition payload {T} (outcome : Settled (AxiosResponse T)) : option T :=
  match outcome with
  | Fulfilled response => Some (response_data response)
  | Rejected _ => None
  end.

(** The view in which exactly the outcome of one attempt shows. *)
Definition applied {T} (outcome : Settled (AxiosResponse T)) : Resource.View T :=
  match outcome with
  | Fulfilled response =>
      {| Resource.value := Some (response_data response);
         Resource.status := Resource.Succeeded;
         Resource.error := None |}
  | Rejected err =>
      {| Resource.value := None;
         Resource.status := Resource.Failed;
         Resource.error := Some (shownMessage err) |}
  end.

(** ** Which attempt wrote which cell

    Bookkeeping on top of [step], read by no code: the attempt whose
    continuation stored the present non-null [data], and the one whose
    continuation stored the present non-null [error]. *)
Record Traced (T : Type) : Type := {
  hook : Hook T;
  data_by : option nat;
  error_by : option nat
}.
Arguments hook {T} _.
Arguments data_by {T} _.
Arguments error_by {T} _.

Definition traced {T} (h : Hook T) : Traced T :=
  {| hook := h; data_by := None; error_by := None |}.

Definition tstep {T} (t : Traced T) (ev : Event T) : option (Traced T) :=
  h' ← step (hook t) ev;
  Some
    (if mounted (fiber (hook t)) then
       match ev with
       | Call _ =>
           {| hook := h'; data_by := data_by t; error_by := None |}
       | Settle attempt (Fulfilled _) =>
           {| hook := h'; data_by := Some attempt; error_by := error_by t |}
       | Settle attempt (Rejected _) =>
           {| hook := h'; data_by := None; error_by := Some attempt |}
       | Unmount =>
           {| hook := h'; data_by := data_by t; error_by := error_by t |}
       end
     else {| hook := h'; data_by := data_by t; error_by := error_by t |}).

Fixpoint trun {T} (t : Traced T) (evs : list (Event T)) : option (Traced T) :=
  match evs with
  | [] => Some t
  | ev :: evs' => t' ← tstep t ev; trun t' evs'
  end.

(** What the bookkeeping is expected to satisfy along every run: a
    populated cell has a writer, a writer is an attempt that has been
    begun and has settled, and no error shows while loading. *)
Record coherent {T} (t : Traced T) : Prop := {
  data_has_writer :
    is_Some (data (returned (hook t))) → is_Some (data_by t);
  error_has_writer :
    is_Some (error (returned (hook t))) → is_Some (error_by t);
  data_writer_settled : ∀ n,
    data_by t = Some n → inflight (hook t) !! n = None;
  error_writer_settled : ∀ n,
    error_by t = Some n → inflight (hook t) !! n = None;
  writers_begun : ∀ n,
    data_by t = Some n ∨ error_by t = Some n ∨ is_Some (inflight (hook t) !! n) →
    n < issued (hook t);
  writers_differ :
    is_Some (data (returned (hook t))) →
    is_Some (error (returned (hook t))) →
    data_by t ≠ error_by t;
  loading_without_error :
    isLoading (returned (hook t)) = true → error (returned (hook t)) = None
}.

(** ** The ordering guarantee, in the words of the design document

    After all completions the view shows the outcome of the attempt
    that was begun last, whatever the order of the completions. *)
Fixpoint outcomeOf {T} (evs : list (Event T)) (attempt : nat)
  : option (Settled (AxiosResponse T)) :=
  match evs with
  | [] => None
  | Settle n outcome :: evs' =>
      if decide (n = attempt) then Some outcome else outcomeOf evs' attempt
  | _ :: evs' => outcomeOf evs' attempt
  end.

Definition reflects {T} (v : Resource.View T)
    (outcome : Settled (AxiosResponse T)) : Prop :=
  match outcome with
  | Fulfilled response =>
      Resource.value v = Some (response_data response)
      ∧ Resource.status v = Resource.Succeeded
      ∧ Resource.error v = None
  | Rejected err =>
      Resource.status v = Resource.Failed
      ∧ Resource.error v = Some (shownMessage err)
  end.

Definition ordering_guarantee (T : Type) : Prop :=
  ∀ (evs : list (Event T)) (h : Hook T) (latest : nat)
    (outcome : Settled (AxiosResponse T)),
    run (useAxiosFetch T) evs = Some h →
    mounted (fiber h) = true →
    inflight h = ∅ →
    issued h = S latest →
    outcomeOf evs latest = Some outcome →
    reflects (observe h) outcome.

(** ** Retention of the last value, in the words of the design document

    When the status is Succeeded with value V, a retrigger whose
    request fails leaves the value V in place, populates the error and
    sets the status to Failed. *)
Definition stale_value_retention (T : Type) : Prop :=
  ∀ (h h1 h2 : Hook T) (V : T) (url : string) (err : Thrown),
    mounted (fiber h) = true →
    Resource.status (observe h) = Resource.Succeeded →
    Resource.value (observe h) = Some V →
    step h (Call url) = Some h1 →
    step h1 (Settle (issued h) (Rejected err)) = Some h2 →
    Resource.value (observe h2) = Some V
    ∧ is_Some (Resource.error (observe h2))
    ∧ Resource.status (observe h2) = Resource.Failed.

End AxiosFetch.

(* ===================================================================== *)
(** * loadWithFetch *)
(* ===================================================================== *)

Module FetchDemo.
Import Js React.

Record NasaApod : Type := {
  title : string;
  explanation : string;
  url : string;
  date : string
}.

(** [process.env.REACT_APP_API_KEY] is a string or undefined; the
    template literal prints the latter as "undefined". *)
Definition nasaApodUrl (apiKey : option string) : string :=
  "https://api.nasa.gov/planetary/apod?api_key=" ++ default "undefined" apiKey.

(** What [fetch] resolves with, as far as the component reads it: the
    status code and what [response.json()] will settle with.  By the
    Fetch standard [response.ok] holds exactly for the codes 200 to
    299. *)
Record Response : Type := {
  status : N;
  json : Settled NasaApod
}.

Definition ok (response : Response) : bool :=
  ((200 <=? status response) && (status response <=? 299))%N.

(** A number in a template literal. *)
Definition decimal (n : N) : string :=
  NilZero.string_of_uint (N.to_uint n).

Record Cells : Type := {
  apodFetch : option NasaApod;
  isLoadingFetch : bool;
  errorFetch : option string
}.

Definition initialCells : Cells :=
  {| apodFetch := None; isLoadingFetch := false; errorFetch := None |}.

Definition setApodFetch (v : option NasaApod) : Stmt (Fiber Cells) unit :=
  dispatch (fun c => {| apodFetch := v;
                        isLoadingFetch := isLoadingFetch c;
                        errorFetch := errorFetch c |}).

Definition setIsLoadingFetch (b : bool) : Stmt (Fiber Cells) unit :=
  dispatch (fun c => {| apodFetch := apodFetch c;
                        isLoadingFetch := b;
                        errorFetch := errorFetch c |}).

Definition setErrorFetch (e : option string) : Stmt (Fiber Cells) unit :=
  dispatch (fun c => {| apodFetch := apodFetch c;
                        isLoadingFetch := isLoadingFetch c;
                        errorFetch := e |}).

(** The function awaits twice, [fetch] and then [response.json()].  It
    writes no cell between the two, so its effect on the cells is the
    one of a single continuation that is handed the response together
    with the outcome of parsing it. *)
Definition loadWithFetch (apiKey : option string)
  : Async (Fiber Cells) string Response :=
  {| before_await :=
       setIsLoadingFetch true;;
       setErrorFetch None;
     request := nasaApodUrl apiKey;
     after_await := fun settled =>
       try_catch_finally
         (response ← await settled;
          (if negb (ok response)
           then throw (ErrorObject ("HTTP-Fehler: " ++ decimal (status response)))
           else mret tt);;
          data ← await (json response);
          setApodFetch (Some data))
         (fun err =>
            let message :=
              if instanceofError err then messageOf err
              else "Unbekannter Fehler" in
            setErrorFetch (Some ("Fehler beim Laden (fetch): " ++ message));;
            setApodFetch None)
         (setIsLoadingFetch false) |}.

Definition observe (f : Fiber Cells) : Resource.View NasaApod :=
  let c := cells f in
  Resource.view (apodFetch c) (isLoadingFetch c) (errorFetch c).

(** What [errorFetch] holds after a response with a status code
    outside 200-299: the text of the thrown [Error] behind the prefix
    that the [catch] clause puts in front. *)
Definition httpErrorShown (code : N) : string :=
  "Fehler beim Laden (fetch): " ++ ("HTTP-Fehler: " ++ decimal code).

End FetchDemo.

(* ===================================================================== *)
(** * ThemeContext, ThemeProvider and useTheme *)
(* ===================================================================== *)

Module ThemeContext.
Import Js.

Inductive Theme : Type := light | dark.

(** [toggleTheme] is kept as the updater it passes to [setTheme]. *)
Record ThemeContextValue : Type := {
  theme : Theme;
  toggleTheme : Theme -> Theme
}.

(** The components above the one that calls the hook, nearest first.
    [ThemeContext] is private to its module, so the only component
    that renders its [Provider] is [ThemeProvider]. *)
Inductive Ancestor : Type :=
| ThemeProvider (current : Theme)
| Component (name : string).

(** The value [ThemeProvider] hands to its [ThemeContext.Provider] in
    a render in which its state cell holds [current]. *)
Definition providedValue (current : Theme) : ThemeContextValue :=
  {| theme := current;
     toggleTheme := fun prev =>
       match prev with
       | light => dark
       | dark => light
       end |}.

(** [useContext(ThemeContext)]: the value of the nearest provider, or
    the default given to [createContext], which is [undefined]. *)
Fixpoint useContext (ancestors : list Ancestor) : option ThemeContextValue :=
  match ancestors with
  | [] => None
  | ThemeProvider current :: _ => Some (providedValue current)
  | Component _ :: above => useContext above
  end.

Definition useTheme (ancestors : list Ancestor) : Completion ThemeContextValue :=
  match useContext ancestors with
  | None =>
      Throw (ErrorObject "useTheme muss innerhalb von ThemeProvider verwendet werden.")
  | Some ctx => Normal ctx
  end.

Definition isThemeProvider (a : Ancestor) : bool :=
  match a with
  | ThemeProvider _ => true
  | Component _ => false
  end.

(** Whether the component is rendered below some [ThemeProvider]. *)
Definition insideThemeProvider (ancestors : list Ancestor) : bool :=
  existsb isThemeProvider ancestors.

End ThemeContext.

(* ===================================================================== *)
(** * Runs of the demo used as examples *)
(* ===================================================================== *)

Module Scenario.
Import Js React AxiosFetch.

Definition respond (text : string) : AxiosResponse string :=
  {| response_data := text; response_status := 200 |}.

Definition networkError : Thrown := ErrorObject "Network Error".

(** The hook after a list of events, for lists that can be run. *)
Definition hookAfter (evs : list (Event string)) : Hook string :=
  default (useAxiosFetch string) (run (useAxiosFetch string) evs).

Definition tracedAfter (evs : list (Event string)) : Traced string :=
  default (traced (useAxiosFetch string))
          (trun (traced (useAxiosFetch string)) evs).

(** The first load of "u1" has succeeded with "V". *)
Definition loaded : list (Event string) :=
  [Call "u1"; Settle 0 (Fulfilled (respond "V"))].

(** The first load of "u1" has failed. *)
Definition failed : list (Event string) :=
  [Call "u1"; Settle 0 (Rejected networkError)].

(** The url changes from "A" to "B" while the request for "A" is on
    its way; the response for "B" arrives first. *)
Definition overtaken : list (Event string) :=
  [Call "A"; Call "B";
   Settle 1 (Fulfilled (respond "b"));
   Settle 0 (Fulfilled (respond "a"))].

(** As before, but the request for "A" is rejected before the response
    for "B" arrives. *)
Definition olderFailsFirst : list (Event string) :=
  [Call "A"; Call "B";
   Settle 0 (Rejected networkError);
   Settle 1 (Fulfilled (respond "b"))].

(** The component goes away while the first request is on its way. *)
Definition leftEarly : list (Event string) :=
  [Call "u1"; Unmount].

Definition apod : FetchDemo.NasaApod :=
  {| FetchDemo.title := "T";
     FetchDemo.explanation := "E";
     FetchDemo.url := "https://apod.nasa.gov/image.jpg";
     FetchDemo.date := "2024-01-01" |}.

(** A 404 whose body parses all the same. *)
Definition notFound : FetchDemo.Response :=
  {| FetchDemo.status := 404; FetchDemo.json := Fulfilled apod |}.

End Scenario.

(* ===================================================================== *)
(** * Runs without overlapping calls, and the first section's screen *)
(* ===================================================================== *)

Module BackendPage.
Import Js React AxiosFetch.

(** A call of [fetchData] is made at rest when the loading flag is
    clear at that moment, that is, when no earlier call is still waiting
    for its request.  This is a condition on a run and nothing the hook
    checks.  The page does not enforce it either: its button is disabled
    only in a render in which the flag was set, and under StrictMode the
    effect after the first render runs twice in a row. *)
Definition atRest {T} (h : Hook T) (ev : Event T) : bool :=
  match ev with
  | Call _ => negb (isLoading (returned h))
  | Settle _ _ => true
  | Unmount => true
  end.

(** [run], defined only on the lists in which every call is made at
    rest. *)
Fixpoint runAtRest {T} (h : Hook T) (evs : list (Event T)) : option (Hook T) :=
  match evs with
  | [] => Some h
  | ev :: evs' =>
      if atRest h ev then h' ← step h ev; runAtRest h' evs' else None
  end.

(** What holds of a mounted hook after a list [evs] in which every call
    was made at rest: what has been delivered is no longer on its way,
    while the flag is set exactly the request begun last is on its way,
    and while it is clear nothing is and the view is the outcome of the
    request begun last. *)
Record singleFlight {T} (evs : list (Event T)) (h : Hook T) : Prop := {
  delivered_gone : ∀ n outcome,
    outcomeOf evs n = Some outcome → inflight h !! n = None ∧ n < issued h;
  loading_one :
    isLoading (returned h) = true →
    error (returned h) = None
    ∧ ∃ n url, issued h = S n ∧ inflight h = {[n := url]};
  resting_none :
    isLoading (returned h) = false →
    inflight h = ∅
    ∧ match issued h with
      | 0 => returned h = initialCells
      | S n => ∃ outcome, outcomeOf evs n = Some outcome ∧ observe h = applied outcome
      end
}.

(** The first section keeps its three cells in the component and shows
    them with the same four JSX conditions as the second one. *)
Definition renderedFetch (c : FetchDemo.Cells) : list (Shown FetchDemo.NasaApod) :=
  rendered {| data := FetchDemo.apodFetch c;
              isLoading := FetchDemo.isLoadingFetch c;
              error := FetchDemo.errorFetch c |}.

(** The text [loadWithFetch] stores for something caught. *)
Definition fetchErrorShown (err : Thrown) : string :=
  "Fehler beim Laden (fetch): " ++ shownMessage err.

End BackendPage.

(* ===================================================================== *)
(** * ThemeProvider in the demo, and the counter slice *)
(* ===================================================================== *)

Module ContextReduxPage.
Import Js ThemeContext.

(** [useState<Theme>("light")] in [ThemeProvider]. *)
Definition initialTheme : Theme := light.

(** A click on "Theme wechseln": the layout calls the [toggleTheme] it
    got from the context, which hands its updater to [setTheme]; React
    applies the updater to the state the provider holds. *)
Definition clickToggle (current : Theme) : Theme :=
  toggleTheme (providedValue current) current.

(** What is above [ContextReduxDemoLayout] in
    [ReactContextReduxExample], inside [App]. *)
Definition layoutAncestors (current : Theme) : list Ancestor :=
  [ThemeProvider current; Component "Provider";
   Component "ReactContextReduxExample"; Component "App"].

(** The state of the slice.  [value] is a JavaScript number, a double.
    The model follows it on the safe integers, those of absolute value
    at most 2^53 - 1, where the additions and subtractions of the
    reducers are exact.  Where an operand or the exact result is no safe
    integer the double the code computes may be rounded, and the model
    gives no result. *)
Record CounterState : Type := {
  value : Z
}.

Definition initialCounterState : CounterState := {| value := 0 |}.

Definition maxSafeInteger : Z := 2 ^ 53 - 1.

Definition isSafeInteger (z : Z) : bool := (Z.abs z <=? maxSafeInteger)%Z.

(** [a + b] and [a - b] on numbers. *)
Definition add (a b : Z) : option Z :=
  if isSafeInteger a && isSafeInteger b && isSafeInteger (a + b)
  then Some (a + b)%Z
  else None.

Definition subtract (a b : Z) : option Z :=
  if isSafeInteger a && isSafeInteger b && isSafeInteger (a - b)
  then Some (a - b)%Z
  else None.

(** The actions the slice creates; the payload of [incrementBy] is
    taken among the integers. *)
Inductive Action : Type :=
| increment
| decrement
| incrementBy (payload : Z).

Definition reducer (state : CounterState) (action : Action) : option CounterState :=
  match action with
  | increment => v ← add (value state) 1; Some {| value := v |}
  | decrement => v ← subtract (value state) 1; Some {| value := v |}
  | incrementBy payload => v ← add (value state) payload; Some {| value := v |}
  end.

(** The store after a list of dispatches. *)
Fixpoint dispatched (actions : list Action) (state : CounterState)
  : option CounterState :=
  match actions with
  | [] => Some state
  | action :: rest => state' ← reducer state action; dispatched rest state'
  end.

(** The three buttons of [ReduxCounter]. *)
Inductive Button : Type := MinusOne | PlusOne | PlusFive.

Definition onClick (b : Button) : Action :=
  match b with
  | MinusOne => decrement
  | PlusOne => increment
  | PlusFive => incrementBy 5
  end.

(** By how much an action moves the counter, the sum of these over a
    list, and the sum of their absolute values. *)
Definition delta (action : Action) : Z :=
  match action with
  | increment => 1
  | decrement => -1
  | incrementBy payload => payload
  end.

Definition total (actions : list Action) : Z :=
  foldr (fun action acc => (delta action + acc)%Z) 0%Z actions.

Definition magnitude (actions : list Action) : Z :=
  foldr (fun action acc => (Z.abs (delta action) + acc)%Z) 0%Z actions.

End ContextReduxPage.

(* ===================================================================== *)
(** * Runs of the demo page used as examples *)
(* ===================================================================== *)

Module PageScenario.
Import Js React AxiosFetch Scenario.

(** A load that succeeds, then a click on the button whose request is
    rejected. *)
Definition reloaded : list (Event string) :=
  [Call "u1"; Settle 0 (Fulfilled (respond "V"));
   Call "u1"; Settle 1 (Rejected networkError)].

(** An [Error] without a message. *)
Definition silentError : Thrown := ErrorObject "".

(** A 200 whose body parses. *)
Definition found : FetchDemo.Response :=
  {| FetchDemo.status := 200; FetchDemo.json := Fulfilled apod |}.

(** A 200 whose body is no JSON. *)
Definition garbled : FetchDemo.Response :=
  {| FetchDemo.status := 200;
     FetchDemo.json := Rejected (ErrorObject "Unexpected token < in JSON") |}.

Definition fetchStarted : Fiber FetchDemo.Cells :=
  exec (before_await (FetchDemo.loadWithFetch (Some "KEY")))
       (mount FetchDemo.initialCells).

End PageScenario.

(* ===================================================================== *)
(** * Properties of useAxiosFetch *)
(* ===================================================================== *)

Module AxiosFetchFacts.
Import Js React AxiosFetch.

Section WithPayload.
Context {T : Type}.
Implicit Types (f : Fiber (Cells T)) (h : Hook T) (url : string)
         (outcome : Settled (AxiosResponse T)).

(** ** One call and one continuation on the cells *)

Lemma before_await_mounted f url :
  mounted f = true →
  exec (before_await (fetchData url)) f =
    {| mounted := true;
       cells := {| data := data (cells f); isLoading := true; error := None |} |}.
Proof. destruct f as [[] c]; [reflexivity | discriminate]. Qed.

Lemma after_await_mounted f url outcome :
  mounted f = true →
  exec (after_await (fetchData url) outcome) f =
    {| mounted := true;
       cells := {| data := payload outcome;
                   isLoading := false;
                   error := match outcome with
                            | Fulfilled _ => error (cells f)
                            | Rejected err => Some (shownMessage err)
                            end |} |}.
Proof.
  destruct f as [[] c]; [intros _ | discriminate].
  destruct outcome as [response | err]; reflexivity.
Qed.

Lemma before_await_unmounted f url :
  mounted f = false → exec (before_await (fetchData url)) f = f.
Proof. destruct f as [[] c]; [discriminate | reflexivity]. Qed.

Lemma after_await_unmounted f url outcome :
  mounted f = false → exec (after_await (fetchData url) outcome) f = f.
Proof.
  destruct f as [[] c]; [discriminate | intros _].
  destruct outcome as [response | err]; reflexivity.
Qed.

(** No throw leaves [fetchData]: the promise it returns is always
    fulfilled. *)
Lemma fetchData_completes f url outcome :
  completion (before_await (fetchData url)) f = Normal tt
  ∧ completion (after_await (fetchData url) outcome) f = Normal tt.
Proof.
  destruct f as [[] c]; destruct outcome as [response | err]; split; reflexivity.
Qed.

(** The status read off the cells is the one the screen shows, as long
    as the error, when there is one, is not the empty string. *)
Lemma phase_rendered (c : Cells T) :
  error c ≠ Some "" →
  match Resource.phase (data c) (isLoading c) (error c) with
  | Resource.Loading => In LoadingNote (rendered c)
  | Resource.Failed => ∃ message, error c = Some message ∧ rendered c = [ErrorNote message]
  | Resource.Succeeded => ∃ apod, data c = Some apod ∧ rendered c = [ApodCard apod]
  | Resource.Idle => rendered c = [NoDataNote]
  end.
Proof.
  destruct c as [d l e]. unfold rendered, Resource.phase. cbn [data isLoading error].
  intros Hne. destruct l; [by left|].
  destruct e as [message|]; cbn.
  - destruct (String.eqb_spec message "") as [->|_]; [done|]. cbn. eauto.
  - destruct d as [apod|]; eauto.
Qed.

(** ** Steps of a hook instance *)

Local Arguments fetchData : simpl never.

Lemma step_Call h url :
  step h (Call url) =
    Some {| fiber := exec (before_await (fetchData url)) (fiber h);
            inflight := <[issued h := url]> (inflight h);
            issued := S (issued h) |}.
Proof. reflexivity. Qed.

Lemma step_Settle h attempt url outcome :
  inflight h !! attempt = Some url →
  step h (Settle attempt outcome) =
    Some {| fiber := exec (after_await (fetchData url) outcome) (fiber h);
            inflight := delete attempt (inflight h);
            issued := issued h |}.
Proof. intros Hin. unfold step. rewrite Hin. reflexivity. Qed.

Lemma step_Settle_inv h attempt outcome h' :
  step h (Settle attempt outcome) = Some h' →
  ∃ url, inflight h !! attempt = Some url
         ∧ h' = {| fiber := exec (after_await (fetchData url) outcome) (fiber h);
                   inflight := delete attempt (inflight h);
                   issued := issued h |}.
Proof.
  unfold step. destruct (inflight h !! attempt) as [url|] eqn:Hin; [|discriminate].
  simpl. intros <-%(inj Some). eauto.
Qed.

(** Unmounting is final. *)
Lemma step_mounted h ev h' :
  step h ev = Some h' → mounted (fiber h') = true → mounted (fiber h) = true.
Proof.
  destruct (mounted (fiber h)) eqn:Hm; [done|].
  destruct ev as [url | attempt outcome |].
  - rewrite step_Call. intros <-%(inj Some). cbn [fiber].
    by rewrite before_await_unmounted, Hm.
  - intros (url & _ & ->)%step_Settle_inv. cbn [fiber].
    by rewrite after_await_unmounted, Hm.
  - intros [= <-]. done.
Qed.

Lemma run_mounted evs : ∀ h h',
  run h evs = Some h' → mounted (fiber h') = true → mounted (fiber h) = true.
Proof.
  induction evs as [|ev evs IH]; intros h h'; simpl.
  - by intros [= ->].
  - destruct (step h ev) as [h1|] eqn:Hstep; [simpl|discriminate].
    intros Hrun Hm. eapply step_mounted; eauto.
Qed.

Lemma run_app evs1 : ∀ evs2 h,
  run h (evs1 ++ evs2) = h1 ← run h evs1; run h1 evs2.
Proof.
  induction evs1 as [|ev evs1 IH]; intros evs2 h; simpl; [done|].
  destruct (step h ev) as [h1|]; simpl; [apply IH | done].
Qed.

Lemma run_snoc_inv evs ev h h' :
  run h (evs ++ [ev]) = Some h' →
  ∃ h1, run h evs = Some h1 ∧ step h1 ev = Some h'.
Proof.
  rewrite run_app. destruct (run h evs) as [h1|]; simpl; [|discriminate].
  destruct (step h1 ev) as [h2|] eqn:Hstep; simpl; [|discriminate].
  intros [= <-]. eauto.
Qed.

(** The cells after a call, and after a delivery, on a mounted
    instance. *)
Lemma returned_Call h url h' :
  mounted (fiber h) = true →
  step h (Call url) = Some h' →
  mounted (fiber h') = true
  ∧ returned h' =
      {| data := data (returned h); isLoading := true; error := None |}
  ∧ inflight h' = <[issued h := url]> (inflight h)
  ∧ issued h' = S (issued h).
Proof.
  intros Hm. rewrite step_Call. intros <-%(inj Some).
  unfold returned. cbn [fiber inflight issued].
  rewrite before_await_mounted by done. done.
Qed.

Lemma returned_Settle h attempt outcome h' :
  mounted (fiber h) = true →
  step h (Settle attempt outcome) = Some h' →
  mounted (fiber h') = true
  ∧ returned h' =
      {| data := payload outcome;
         isLoading := false;
         error := match outcome with
                  | Fulfilled _ => error (returned h)
                  | Rejected err => Some (shownMessage err)
                  end |}
  ∧ inflight h' = delete attempt (inflight h)
  ∧ issued h' = issued h.
Proof.
  intros Hm (url & _ & ->)%step_Settle_inv.
  unfold returned. cbn [fiber inflight issued].
  rewrite after_await_mounted by done. done.
Qed.

(** A request that has just been issued can be delivered. *)
Lemma step_Call_Settle h url outcome :
  ∃ h1 h2,
    step h (Call url) = Some h1
    ∧ step h1 (Settle (issued h) outcome) = Some h2.
Proof.
  eexists _, _. split; [apply step_Call|].
  eapply step_Settle. cbn [inflight]. apply lookup_insert_eq.
Qed.

(** ** The claims of the design document *)

(** C5 (round trip).  For every locator, a call of [fetchData]
    followed by the delivery of a response with payload P leaves the
    view exactly {value: P, status: Succeeded, error: absent}. *)
Theorem round_trip_success h url response :
  mounted (fiber h) = true →
  ∃ h1 h2,
    step h (Call url) = Some h1
    ∧ step h1 (Settle (issued h) (Fulfilled response)) = Some h2
    ∧ observe h2 =
        {| Resource.value := Some (response_data response);
           Resource.status := Resource.Succeeded;
           Resource.error := None |}.
Proof.
  intros Hm.
  destruct (step_Call_Settle h url (Fulfilled response)) as (h1 & h2 & H1 & H2).
  exists h1, h2. split_and!; [done..|].
  destruct (returned_Call _ _ _ Hm H1) as (Hm1 & Hc1 & _).
  destruct (returned_Settle _ _ _ _ Hm1 H2) as (_ & Hc2 & _).
  unfold observe. rewrite Hc2, Hc1. reflexivity.
Qed.

(** C7.  From every prior state, also a failed one with an error, a
    call of [fetchData] sets the status to Loading and clears the
    error; the value is left as it was. *)
Theorem start_sets_loading_clears_error h url :
  mounted (fiber h) = true →
  ∃ h1,
    step h (Call url) = Some h1
    ∧ Resource.status (observe h1) = Resource.Loading
    ∧ Resource.error (observe h1) = None
    ∧ Resource.value (observe h1) = Resource.value (observe h).
Proof.
  intros Hm. eexists. split; [apply step_Call|].
  destruct (returned_Call _ _ _ Hm (step_Call h url)) as (_ & Hc & _).
  unfold observe. rewrite Hc. done.
Qed.

(** C10.  Whatever the cells hold when the request settles and
    however it settles, the continuation of [fetchData] ends
    without a throw and leaves the loading flag false. *)
Theorem attempt_ends_with_loading_false f url outcome :
  mounted f = true →
  completion (after_await (fetchData url) outcome) f = Normal tt
  ∧ isLoading (cells (exec (after_await (fetchData url) outcome) f)) = false.
Proof.
  intros Hm. split; [apply fetchData_completes|].
  by rewrite after_await_mounted.
Qed.

(** C2, amended.  When the status is Succeeded with value V, a
    retrigger whose request is rejected clears the value: the view
    becomes {value: absent, status: Failed, error: the message}. *)
Theorem failure_after_success_clears_value h V url err :
  mounted (fiber h) = true →
  Resource.status (observe h) = Resource.Succeeded →
  Resource.value (observe h) = Some V →
  ∃ h1 h2,
    step h (Call url) = Some h1
    ∧ step h1 (Settle (issued h) (Rejected err)) = Some h2
    ∧ observe h2 =
        {| Resource.value := None;
           Resource.status := Resource.Failed;
           Resource.error := Some (shownMessage err) |}.
Proof.
  intros Hm _ _.
  destruct (step_Call_Settle h url (Rejected err)) as (h1 & h2 & H1 & H2).
  exists h1, h2. split_and!; [done..|].
  destruct (returned_Call _ _ _ Hm H1) as (Hm1 & Hc1 & _).
  destruct (returned_Settle _ _ _ _ Hm1 H2) as (_ & Hc2 & _).
  unfold observe. rewrite Hc2. reflexivity.
Qed.

(** C8.  A rejection, whatever was thrown, sets the status to Failed
    and nothing more: the refetch button is enabled, a further call
    of [fetchData] is accepted and puts the instance in Loading
    with the error cleared, and when that request is fulfilled the
    view shows exactly its payload. *)
Theorem failure_is_not_fatal h attempt err h1 url response :
  mounted (fiber h) = true →
  step h (Settle attempt (Rejected err)) = Some h1 →
  Resource.status (observe h1) = Resource.Failed
  ∧ Resource.error (observe h1) = Some (shownMessage err)
  ∧ refetchButtonDisabled h1 = false
  ∧ ∃ h2 h3,
      step h1 (Call url) = Some h2
      ∧ Resource.status (observe h2) = Resource.Loading
      ∧ Resource.error (observe h2) = None
      ∧ step h2 (Settle (issued h1) (Fulfilled response)) = Some h3
      ∧ observe h3 = applied (Fulfilled response).
Proof.
  intros Hm Hfail.
  destruct (returned_Settle _ _ _ _ Hm Hfail) as (Hm1 & Hc1 & _).
  unfold refetchButtonDisabled, observe. rewrite Hc1.
  split_and!; [done..|].
  destruct (step_Call_Settle h1 url (Fulfilled response)) as (h2 & h3 & H2 & H3).
  exists h2, h3.
  destruct (returned_Call _ _ _ Hm1 H2) as (Hm2 & Hc2 & _).
  destruct (returned_Settle _ _ _ _ Hm2 H3) as (_ & Hc3 & _).
  rewrite Hc2, Hc3, Hc2. done.
Qed.

(** ** After the instance has been unmounted *)

Lemma step_unmounted h ev h' :
  mounted (fiber h) = false → step h ev = Some h' → fiber h' = fiber h.
Proof.
  intros Hm. destruct ev as [url | attempt outcome |].
  - rewrite step_Call. intros <-%(inj Some). cbn [fiber].
    by apply before_await_unmounted.
  - intros (url & _ & ->)%step_Settle_inv. cbn [fiber].
    by apply after_await_unmounted.
  - intros <-%(inj Some). cbn [fiber].
    destruct (fiber h) as [m c]. simpl in Hm. by subst m.
Qed.

Lemma run_unmounted evs : ∀ h h',
  mounted (fiber h) = false → run h evs = Some h' → fiber h' = fiber h.
Proof.
  induction evs as [|ev evs IH]; intros h h' Hm; simpl.
  - by intros [= ->].
  - destruct (step h ev) as [h1|] eqn:Hstep; [simpl|discriminate].
    intros Hrun. pose proof (step_unmounted _ _ _ Hm Hstep) as Hf.
    rewrite <- Hf. apply IH; [by rewrite Hf | done].
Qed.

(** C6.  Once the instance has been unmounted, no delivery of an
    outstanding completion, fulfilled or rejected, and no other
    event changes what the hook shows; such a delivery is accepted
    and does nothing. *)
Theorem completion_after_unmount_ignored h h1 evs h2 :
  step h Unmount = Some h1 →
  run h1 evs = Some h2 →
  returned h2 = returned h
  ∧ observe h2 = observe h
  ∧ ∀ attempt url outcome,
      inflight h2 !! attempt = Some url →
      ∃ h3, step h2 (Settle attempt outcome) = Some h3
            ∧ observe h3 = observe h.
Proof.
  intros <-%(inj Some) Hrun.
  apply run_unmounted in Hrun as Hf; [|done].
  assert (returned h2 = returned h) as Hret.
  { unfold returned. by rewrite Hf. }
  assert (observe h2 = observe h) as Hobs.
  { unfold observe. by rewrite Hret. }
  split_and!; [done..|].
  intros attempt url outcome Hin.
  eexists. split; [by apply step_Settle|].
  unfold observe, returned. cbn [fiber].
  rewrite after_await_unmounted by (by rewrite Hf).
  apply Hobs.
Qed.

(** ** The delivery that comes last decides *)

(** C1, amended.  Along every sequence of calls of [fetchData] and
    every interleaving of the deliveries, the delivery that comes
    last decides what shows, whichever attempt it belongs to: the
    value is its payload, or absent when it was rejected; the status
    is not Loading; a rejection shows as exactly {absent, Failed,
    its message}; a fulfilment leaves the error as it was before the
    delivery, so that its status is Succeeded when no error was stored
    and Failed when one was, and it shows as exactly {payload,
    Succeeded, absent} when it directly follows a call. *)
Theorem last_delivery_decides evs attempt outcome h :
  run (useAxiosFetch T) (evs ++ [Settle attempt outcome]) = Some h →
  mounted (fiber h) = true →
  Resource.value (observe h) = payload outcome
  ∧ Resource.status (observe h) ≠ Resource.Loading
  ∧ (∀ err, outcome = Rejected err → observe h = applied outcome)
  ∧ (∀ url, last evs = Some (Call url) → observe h = applied outcome)
  ∧ is_Some (run (useAxiosFetch T) evs)
  ∧ (∀ before response,
       run (useAxiosFetch T) evs = Some before →
       outcome = Fulfilled response →
       Resource.error (observe h) = Resource.error (observe before)
       ∧ Resource.status (observe h) =
           (if Resource.error (observe before) is Some _
            then Resource.Failed else Resource.Succeeded)).
Proof.
  intros (h1 & Hrun & Hstep)%run_snoc_inv Hm.
  pose proof (step_mounted _ _ _ Hstep Hm) as Hm1.
  destruct (returned_Settle _ _ _ _ Hm1 Hstep) as (_ & Hc & _).
  unfold observe. rewrite Hc. split_and!.
  - done.
  - simpl. unfold Resource.phase. simpl. by repeat case_match.
  - by intros err ->.
  - intros url (evs0 & ->)%last_Some.
    apply run_snoc_inv in Hrun as (h0 & Hrun0 & Hcall).
    pose proof (step_mounted _ _ _ Hcall Hm1) as Hm0.
    destruct (returned_Call _ _ _ Hm0 Hcall) as (_ & Hc1 & _).
    rewrite Hc1. by destruct outcome.
  - by rewrite Hrun.
  - intros before response Hbefore ->.
    rewrite Hrun in Hbefore. apply (inj Some) in Hbefore as <-.
    cbn. by destruct (error (returned h1)).
Qed.

(** ** Writers of the cells *)

Lemma trun_erase evs : ∀ (t : Traced T),
  hook <$> trun t evs = run (hook t) evs.
Proof.
  induction evs as [|ev evs IH]; intros t; simpl; [done|].
  unfold tstep. destruct (step (hook t) ev) as [h1|]; simpl; [|done].
  rewrite IH. by destruct (mounted (fiber (hook t))), ev as [|? []|].
Qed.

Lemma coherent_init : coherent (traced (useAxiosFetch T)).
Proof.
  split; simpl; try done.
  intros n [|[|[? Hin]]]; try done.
Qed.

Lemma coherent_unmounted (t : Traced T) h' :
  coherent t →
  fiber h' = fiber (hook t) →
  (∀ n, n < issued (hook t) →
        inflight (hook t) !! n = None → inflight h' !! n = None) →
  (∀ n, is_Some (inflight h' !! n) → n < issued h') →
  issued (hook t) ≤ issued h' →
  coherent {| hook := h'; data_by := data_by t; error_by := error_by t |}.
Proof.
  intros [] Hf Hin Hlt Hle.
  split; unfold returned in *; cbn [hook data_by error_by]; rewrite ?Hf; try done.
  - intros n Hn. apply Hin; [apply writers_begun0|]; auto.
  - intros n Hn. apply Hin; [apply writers_begun0|]; auto.
  - intros n [Hn|[Hn|Hn]]; [| |by apply Hlt].
    + eapply Nat.lt_le_trans; [apply writers_begun0|]; eauto.
    + eapply Nat.lt_le_trans; [apply writers_begun0|]; eauto.
Qed.

Lemma coherent_step (t : Traced T) ev t' :
  coherent t → tstep t ev = Some t' → coherent t'.
Proof.
  intros Hco. unfold tstep.
  destruct (step (hook t) ev) as [h'|] eqn:Hstep; [simpl|discriminate].
  intros <-%(inj Some).
  assert (∀ n, is_Some (inflight (hook t) !! n) → n < issued (hook t)) as Hlt
    by (intros n ?; apply Hco; auto).
  destruct (mounted (fiber (hook t))) eqn:Hm.
  - destruct ev as [url | attempt [response | err] |].
    + destruct (returned_Call _ _ _ Hm Hstep) as (_ & Hc & Hin & Hiss).
      destruct Hco. split; cbn [hook data_by error_by]; rewrite ?Hc, ?Hin, ?Hiss;
        cbn [data error isLoading]; try done.
      * intros n Hn. apply lookup_insert_None. split; [auto|].
        assert (n < issued (hook t)) by auto. lia.
      * intros n [Hn|[Hn|Hn]]; [|done|].
        -- assert (n < issued (hook t)) by auto. lia.
        -- apply lookup_insert_is_Some in Hn as [<-|[_ Hn]]; [lia|].
           assert (n < issued (hook t)) by auto. lia.
    + destruct (returned_Settle _ _ _ _ Hm Hstep) as (_ & Hc & Hin & Hiss).
      apply step_Settle_inv in Hstep as (url & Hurl & _).
      destruct Hco. split; cbn [hook data_by error_by]; rewrite ?Hc, ?Hin, ?Hiss;
        cbn [data error isLoading payload]; try done.
      * intros n [= <-]. apply lookup_delete_eq.
      * intros n Hn. apply lookup_delete_None. auto.
      * intros n [[= <-]|[Hn|Hn]].
        -- apply Hlt. by rewrite Hurl.
        -- auto.
        -- apply lookup_delete_is_Some in Hn as [_ Hn]. auto.
      * intros _ _ Heq. symmetry in Heq.
        apply error_writer_settled0 in Heq. congruence.
    + destruct (returned_Settle _ _ _ _ Hm Hstep) as (_ & Hc & Hin & Hiss).
      apply step_Settle_inv in Hstep as (url & Hurl & _).
      destruct Hco. split; cbn [hook data_by error_by]; rewrite ?Hc, ?Hin, ?Hiss;
        cbn [data error isLoading payload]; try done.
      * intros n [= <-]. apply lookup_delete_eq.
      * intros n [Hn|[[= <-]|Hn]]; [done| |].
        -- apply Hlt. by rewrite Hurl.
        -- apply lookup_delete_is_Some in Hn as [_ Hn]. auto.
    + apply (inj Some) in Hstep as <-.
      destruct Hco. split; unfold returned in *; cbn [hook data_by error_by fiber
        inflight issued unmount cells] in *; auto.
  - destruct ev as [url | attempt outcome |].
    + pose proof (step_unmounted _ _ _ Hm Hstep) as Hf.
      rewrite step_Call in Hstep. apply (inj Some) in Hstep as <-.
      apply coherent_unmounted; cbn [inflight issued] in *; [done..| | |lia].
      * intros n Hn Hnone. apply lookup_insert_None. split; [done|lia].
      * intros n [<-|[_ Hn]]%lookup_insert_is_Some; [lia|].
        apply Hlt in Hn. lia.
    + pose proof (step_unmounted _ _ _ Hm Hstep) as Hf.
      apply step_Settle_inv in Hstep as (url & Hurl & ->).
      apply coherent_unmounted; cbn [inflight issued] in *; [done..| | |lia].
      * intros n _ Hnone. apply lookup_delete_None. auto.
      * intros n [_ Hn]%lookup_delete_is_Some. auto.
    + pose proof (step_unmounted _ _ _ Hm Hstep) as Hf.
      apply (inj Some) in Hstep as <-.
      apply coherent_unmounted; cbn [inflight issued] in *; auto.
Qed.

Lemma coherent_run evs : ∀ (t t' : Traced T),
  coherent t → trun t evs = Some t' → coherent t'.
Proof.
  induction evs as [|ev evs IH]; intros t t' Hco; simpl.
  - by intros [= <-].
  - destruct (tstep t ev) as [t1|] eqn:Hstep; [simpl|discriminate].
    apply IH. by eapply coherent_step.
Qed.

(** C4.  At every point of every run of an instance exactly one of
    these holds: a value is present and the status is Succeeded; an
    error is present and the status is Failed; the status is Idle or
    Loading.  An error is present exactly in status Failed, and
    whenever a value and an error are both present they were stored
    by two different attempts, never by one. *)
Theorem exactly_one_phase evs (t : Traced T) :
  trun (traced (useAxiosFetch T)) evs = Some t →
  let v := observe (hook t) in
  let succeeded :=
    is_Some (Resource.value v) ∧ Resource.status v = Resource.Succeeded in
  let failed :=
    is_Some (Resource.error v) ∧ Resource.status v = Resource.Failed in
  let resting :=
    Resource.status v = Resource.Idle ∨ Resource.status v = Resource.Loading in
  ((succeeded ∧ ¬ failed ∧ ¬ resting)
   ∨ (¬ succeeded ∧ failed ∧ ¬ resting)
   ∨ (¬ succeeded ∧ ¬ failed ∧ resting))
  ∧ (is_Some (Resource.error v) ↔ Resource.status v = Resource.Failed)
  ∧ (is_Some (Resource.value v) → is_Some (Resource.error v) →
     ∃ i j, data_by t = Some i ∧ error_by t = Some j ∧ i ≠ j).
Proof.
  intros Hrun. apply coherent_run in Hrun; [|apply coherent_init].
  destruct Hrun as [Hd He _ _ _ Hne Hload].
  unfold observe, Resource.view, Resource.phase. cbn zeta.
  cbn [Resource.value Resource.status Resource.error].
  destruct (returned (hook t)) as [d l e]. cbn [data isLoading error] in *.
  split_and!.
  - clear. destruct l, e, d; cbn;
      intuition (try discriminate; eauto using is_Some_None, mk_is_Some).
  - destruct l; [rewrite Hload by done; clear | clear; destruct e, d];
      cbn; split; intros H; first [done | by destruct H | by eexists].
  - intros Hsd Hse. specialize (Hne Hsd Hse).
    destruct (Hd Hsd) as [i Hi], (He Hse) as [j Hj].
    exists i, j. split_and!; [done..|]. congruence.
Qed.

End WithPayload.
End AxiosFetchFacts.

(* ===================================================================== *)
(** * Properties of loadWithFetch *)
(* ===================================================================== *)

Module FetchDemoFacts.
Import Js React FetchDemo.

Lemma append_cancel_l (p a b : string) : p ++ a = p ++ b → a = b.
Proof. induction p as [|c p IH]; simpl; [done|]. intros [= ?]. auto. Qed.

Lemma decimal_inj (n m : N) : decimal n = decimal m → n = m.
Proof.
  unfold decimal. intros Heq.
  assert (∀ k, N.to_uint k ≠ Decimal.Nil) as Hnn.
  { intros [|q]; [discriminate | apply DecimalPos.Unsigned.to_uint_nonnil]. }
  apply DecimalN.Unsigned.to_uint_inj.
  apply (inj Some). rewrite <- !NilZero.usu by apply Hnn. by rewrite Heq.
Qed.

Lemma httpErrorShown_inj (n m : N) : httpErrorShown n = httpErrorShown m → n = m.
Proof.
  unfold httpErrorShown. intros Heq.
  by apply decimal_inj, (append_cancel_l "HTTP-Fehler: "),
    (append_cancel_l "Fehler beim Laden (fetch): ").
Qed.

Lemma loadWithFetch_before apiKey f :
  mounted f = true →
  exec (before_await (loadWithFetch apiKey)) f =
    {| mounted := true;
       cells := {| apodFetch := apodFetch (cells f);
                   isLoadingFetch := true;
                   errorFetch := None |} |}.
Proof. destruct f as [[] c]; [reflexivity | discriminate]. Qed.

Lemma loadWithFetch_not_ok apiKey f response :
  mounted f = true →
  ok response = false →
  exec (after_await (loadWithFetch apiKey) (Fulfilled response)) f =
    {| mounted := true;
       cells := {| apodFetch := None;
                   isLoadingFetch := false;
                   errorFetch := Some (httpErrorShown (status response)) |} |}.
Proof.
  destruct f as [[] c]; [intros _ Hok | discriminate].
  unfold exec, loadWithFetch, after_await, try_catch_finally. cbn.
  unfold mbind, stmt_bind. cbn. rewrite Hok. reflexivity.
Qed.

(** C3.  A response whose status code is outside 200-299 is a failure
    of the attempt whatever its body holds, also a body that parses:
    after the call the status is Loading, and once the response has
    arrived the view is exactly {value: absent, status: Failed, error:
    the HTTP error text with the code}; the code can be read back from
    that text, and the continuation ends without a throw. *)
Theorem non_2xx_response_is_failure apiKey f response :
  mounted f = true →
  ok response = false →
  let started := exec (before_await (loadWithFetch apiKey)) f in
  let settled :=
    exec (after_await (loadWithFetch apiKey) (Fulfilled response)) started in
  Resource.status (observe started) = Resource.Loading
  ∧ observe settled =
      {| Resource.value := None;
         Resource.status := Resource.Failed;
         Resource.error := Some (httpErrorShown (status response)) |}
  ∧ (∀ code, httpErrorShown code = httpErrorShown (status response) →
             code = status response)
  ∧ completion (after_await (loadWithFetch apiKey) (Fulfilled response)) started
    = Normal tt.
Proof.
  intros Hm Hok. cbn zeta.
  rewrite loadWithFetch_before by done.
  rewrite loadWithFetch_not_ok by done.
  split_and!; [done | done | intros code; apply httpErrorShown_inj |].
  unfold completion, loadWithFetch, after_await, try_catch_finally. cbn.
  unfold mbind, stmt_bind. cbn. by rewrite Hok.
Qed.

End FetchDemoFacts.

(* ===================================================================== *)
(** * Properties of useTheme *)
(* ===================================================================== *)

Module ThemeContextFacts.
Import Js ThemeContext.

Lemma useContext_None ancestors :
  useContext ancestors = None ↔ insideThemeProvider ancestors = false.
Proof.
  induction ancestors as [|[current | name] above IH]; simpl; [done| |done].
  split; discriminate.
Qed.

Lemma useContext_Some ancestors ctx :
  useContext ancestors = Some ctx →
  ∃ current, ctx = providedValue current ∧ In (ThemeProvider current) ancestors.
Proof.
  induction ancestors as [|[current | name] above IH]; simpl; [done| |].
  - intros [= <-]. eauto.
  - intros (current & -> & Hin)%IH. eauto.
Qed.

(** C9.  [useTheme] called below no [ThemeProvider] throws its
    configuration error; called below one it returns the value that
    the nearest provider supplies, whose theme is light or dark.  It
    throws exactly when no provider is above the caller. *)
Theorem useTheme_throws_iff_no_provider ancestors :
  ((insideThemeProvider ancestors = false
    ∧ useTheme ancestors =
        Throw (ErrorObject
                 "useTheme muss innerhalb von ThemeProvider verwendet werden."))
   ∨ (insideThemeProvider ancestors = true
      ∧ ∃ current,
          useTheme ancestors = Normal (providedValue current)
          ∧ In (ThemeProvider current) ancestors
          ∧ (theme (providedValue current) = light
             ∨ theme (providedValue current) = dark)))
  ∧ ((∃ err, useTheme ancestors = Throw err)
     ↔ insideThemeProvider ancestors = false).
Proof.
  unfold useTheme.
  destruct (useContext ancestors) as [ctx|] eqn:Hctx.
  - destruct (useContext_Some _ _ Hctx) as (current & -> & Hin).
    assert (insideThemeProvider ancestors = true) as Hins.
    { destruct (insideThemeProvider ancestors) eqn:E; [done|].
      apply useContext_None in E. congruence. }
    split.
    + right. split; [done|]. exists current. split_and!; [done..|].
      destruct current; auto.
    + rewrite Hins. split; [by intros [err ?] | done].
  - apply useContext_None in Hctx as Hins. split.
    + left. done.
    + split; [done | eauto].
Qed.

End ThemeContextFacts.

(* ===================================================================== *)
(** * The example runs *)
(* ===================================================================== *)

Module ScenarioFacts.
Import Js React AxiosFetch Scenario.
Import AxiosFetchFacts FetchDemoFacts.

Example load_u1 :
  observe <$> run (useAxiosFetch string) loaded = Some (applied (Fulfilled (respond "V"))).
Proof. vm_compute. reflexivity. Qed.

Example overtaken_shows_a :
  observe <$> run (useAxiosFetch string) overtaken
  = Some (applied (Fulfilled (respond "a"))).
Proof. vm_compute. reflexivity. Qed.

Example overtaken_all_settled :
  inflight (hookAfter overtaken) = ∅ ∧ issued (hookAfter overtaken) = 2.
Proof. vm_compute. done. Qed.

Example olderFailsFirst_shows_both :
  observe <$> run (useAxiosFetch string) olderFailsFirst
  = Some {| Resource.value := Some "b";
            Resource.status := Resource.Failed;
            Resource.error := Some "Network Error" |}.
Proof. vm_compute. reflexivity. Qed.

Example notFound_shown :
  FetchDemo.httpErrorShown 404 = "Fehler beim Laden (fetch): HTTP-Fehler: 404".
Proof. vm_compute. reflexivity. Qed.

(** ** Where the design document and the hook part ways *)

(** C1 fails as stated: when the response for "B" overtakes the one
    for "A", all requests have settled and the hook shows "a", the
    payload of the attempt begun first, and not the outcome of the
    attempt begun last. *)
Lemma ordering_guarantee_fails :
  observe <$> run (useAxiosFetch string) overtaken
    = Some (applied (Fulfilled (respond "a")))
  ∧ ¬ ordering_guarantee string.
Proof.
  split; [vm_compute; reflexivity|].
  intros Hclaim.
  destruct (Hclaim overtaken (hookAfter overtaken) 1 (Fulfilled (respond "b")))
    as [Hvalue _]; [vm_compute; reflexivity..|].
  vm_compute in Hvalue. discriminate.
Qed.

(** C2 fails as stated: after a load that succeeded with "V", a
    refetch that is rejected leaves no value. *)
Lemma stale_value_retention_fails :
  observe (hookAfter loaded) = applied (Fulfilled (respond "V"))
  ∧ observe <$> run (hookAfter loaded) [Call "u1"; Settle 1 (Rejected networkError)]
    = Some {| Resource.value := None;
              Resource.status := Resource.Failed;
              Resource.error := Some "Network Error" |}
  ∧ ¬ stale_value_retention string.
Proof.
  split_and!; [vm_compute; reflexivity..|].
  intros Hclaim.
  destruct (Hclaim (hookAfter loaded)
              (hookAfter (loaded ++ [Call "u1"]))
              (hookAfter (loaded ++ [Call "u1"; Settle 1 (Rejected networkError)]))
              "V" "u1" networkError)
    as [Hvalue _]; [vm_compute; reflexivity..|].
  vm_compute in Hvalue. discriminate.
Qed.

(** ** The theorems at the example runs *)

(** C1, amended, at the run in which "A" fails before "B" arrives. *)
Lemma last_delivery_decides_witness :
  run (useAxiosFetch string)
      ([Call "A"; Call "B"; Settle 0 (Rejected networkError)]
         ++ [Settle 1 (Fulfilled (respond "b"))])
    = Some (hookAfter olderFailsFirst)
  ∧ mounted (fiber (hookAfter olderFailsFirst)) = true
  ∧ Resource.value (observe (hookAfter olderFailsFirst)) = Some "b"
  ∧ Resource.status (observe (hookAfter olderFailsFirst)) ≠ Resource.Loading
  ∧ Resource.error (observe (hookAfter olderFailsFirst)) = Some "Network Error"
  ∧ Resource.status (observe (hookAfter olderFailsFirst)) = Resource.Failed.
Proof.
  assert (run (useAxiosFetch string)
            ([Call "A"; Call "B"; Settle 0 (Rejected networkError)]
               ++ [Settle 1 (Fulfilled (respond "b"))])
          = Some (hookAfter olderFailsFirst)) as Hrun by (vm_compute; reflexivity).
  assert (mounted (fiber (hookAfter olderFailsFirst)) = true) as Hm by reflexivity.
  pose proof (last_delivery_decides _ _ _ _ Hrun Hm)
    as (Hvalue & Hstatus & _ & _ & _ & Hkept).
  destruct (Hkept (hookAfter [Call "A"; Call "B"; Settle 0 (Rejected networkError)])
              (respond "b")) as [Herror Hfailed]; [vm_compute; reflexivity | reflexivity |].
  split_and!; [exact Hrun | exact Hm | exact Hvalue | exact Hstatus
              | exact Herror | exact Hfailed].
Defined.

(** C2, amended, at a refetch of "u1" that is rejected after "V" was loaded. *)
Lemma failure_after_success_clears_value_witness :
  mounted (fiber (hookAfter loaded)) = true
  ∧ Resource.status (observe (hookAfter loaded)) = Resource.Succeeded
  ∧ Resource.value (observe (hookAfter loaded)) = Some "V"
  ∧ ∃ h1 h2,
      step (hookAfter loaded) (Call "u1") = Some h1
      ∧ step h1 (Settle 1 (Rejected networkError)) = Some h2
      ∧ observe h2 =
          {| Resource.value := None;
             Resource.status := Resource.Failed;
             Resource.error := Some "Network Error" |}.
Proof.
  split_and!; [reflexivity..|].
  apply (failure_after_success_clears_value (hookAfter loaded) "V" "u1" networkError);
    reflexivity.
Defined.

(** C4 at the run that leaves a value and an error on the screen. *)
Lemma exactly_one_phase_witness :
  trun (traced (useAxiosFetch string)) olderFailsFirst
    = Some (tracedAfter olderFailsFirst)
  ∧ (is_Some (Resource.value (observe (hook (tracedAfter olderFailsFirst)))) →
     is_Some (Resource.error (observe (hook (tracedAfter olderFailsFirst)))) →
     ∃ i j, data_by (tracedAfter olderFailsFirst) = Some i
            ∧ error_by (tracedAfter olderFailsFirst) = Some j
            ∧ i ≠ j).
Proof.
  assert (trun (traced (useAxiosFetch string)) olderFailsFirst
          = Some (tracedAfter olderFailsFirst)) as Hrun by (vm_compute; reflexivity).
  split; [exact Hrun|].
  apply (exactly_one_phase olderFailsFirst (tracedAfter olderFailsFirst) Hrun).
Defined.

(** C5 at the first load of "u1". *)
Lemma round_trip_success_witness :
  mounted (fiber (useAxiosFetch string)) = true
  ∧ ∃ h1 h2,
      step (useAxiosFetch string) (Call "u1") = Some h1
      ∧ step h1 (Settle 0 (Fulfilled (respond "T"))) = Some h2
      ∧ observe h2 =
          {| Resource.value := Some "T";
             Resource.status := Resource.Succeeded;
             Resource.error := None |}.
Proof.
  split; [reflexivity|].
  apply (round_trip_success (useAxiosFetch string) "u1" (respond "T")).
  reflexivity.
Defined.

(** C6 at a response that arrives after the component has gone. *)
Lemma completion_after_unmount_ignored_witness :
  step (hookAfter [Call "u1"]) Unmount = Some (hookAfter leftEarly)
  ∧ run (hookAfter leftEarly) [Settle 0 (Fulfilled (respond "T"))]
    = Some (hookAfter (leftEarly ++ [Settle 0 (Fulfilled (respond "T"))]))
  ∧ observe (hookAfter (leftEarly ++ [Settle 0 (Fulfilled (respond "T"))]))
    = observe (hookAfter [Call "u1"]).
Proof.
  assert (step (hookAfter [Call "u1"]) Unmount = Some (hookAfter leftEarly))
    as Hun by (vm_compute; reflexivity).
  assert (run (hookAfter leftEarly) [Settle 0 (Fulfilled (respond "T"))]
          = Some (hookAfter (leftEarly ++ [Settle 0 (Fulfilled (respond "T"))])))
    as Hrun by (vm_compute; reflexivity).
  split_and!; [exact Hun | exact Hrun |].
  apply (completion_after_unmount_ignored _ _ _ _ Hun Hrun).
Defined.

(** C7 at a refetch after a failed load. *)
Lemma start_sets_loading_clears_error_witness :
  mounted (fiber (hookAfter failed)) = true
  ∧ Resource.error (observe (hookAfter failed)) = Some "Network Error"
  ∧ ∃ h1,
      step (hookAfter failed) (Call "u1") = Some h1
      ∧ Resource.status (observe h1) = Resource.Loading
      ∧ Resource.error (observe h1) = None
      ∧ Resource.value (observe h1) = Resource.value (observe (hookAfter failed)).
Proof.
  split_and!; [reflexivity..|].
  apply (start_sets_loading_clears_error (hookAfter failed) "u1"). reflexivity.
Defined.

(** C8 at a failed first load that is followed by a successful refetch. *)
Lemma failure_is_not_fatal_witness :
  mounted (fiber (hookAfter [Call "u1"])) = true
  ∧ step (hookAfter [Call "u1"]) (Settle 0 (Rejected networkError))
    = Some (hookAfter failed)
  ∧ Resource.status (observe (hookAfter failed)) = Resource.Failed
  ∧ ∃ h2 h3,
      step (hookAfter failed) (Call "u1") = Some h2
      ∧ Resource.status (observe h2) = Resource.Loading
      ∧ Resource.error (observe h2) = None
      ∧ step h2 (Settle 1 (Fulfilled (respond "T"))) = Some h3
      ∧ observe h3 = applied (Fulfilled (respond "T")).
Proof.
  assert (mounted (fiber (hookAfter [Call "u1"])) = true) as Hm by reflexivity.
  assert (step (hookAfter [Call "u1"]) (Settle 0 (Rejected networkError))
          = Some (hookAfter failed)) as Hstep by (vm_compute; reflexivity).
  split_and!; [exact Hm | exact Hstep | |];
    apply (failure_is_not_fatal _ _ _ _ "u1" (respond "T") Hm Hstep).
Defined.

(** C10 at a request rejected with a value that is no Error. *)
Lemma attempt_ends_with_loading_false_witness :
  mounted (fiber (hookAfter [Call "u1"])) = true
  ∧ completion (after_await (fetchData "u1") (Rejected (OtherValue "42")))
               (fiber (hookAfter [Call "u1"]))
    = Normal tt
  ∧ isLoading (cells (exec (after_await (fetchData "u1") (Rejected (OtherValue "42")))
                           (fiber (hookAfter [Call "u1"]))))
    = false.
Proof.
  split; [reflexivity|].
  apply (attempt_ends_with_loading_false
           (fiber (hookAfter [Call "u1"])) "u1" (Rejected (OtherValue "42"))).
  reflexivity.
Defined.

(** C3 at a 404 whose body parses. *)
Lemma non_2xx_response_is_failure_witness :
  mounted (mount FetchDemo.initialCells) = true
  ∧ FetchDemo.ok notFound = false
  ∧ FetchDemo.observe
      (exec (after_await (FetchDemo.loadWithFetch (Some "KEY")) (Fulfilled notFound))
            (exec (before_await (FetchDemo.loadWithFetch (Some "KEY")))
                  (mount FetchDemo.initialCells)))
    = {| Resource.value := None;
         Resource.status := Resource.Failed;
         Resource.error := Some "Fehler beim Laden (fetch): HTTP-Fehler: 404" |}.
Proof.
  split_and!; [reflexivity..|].
  apply (non_2xx_response_is_failure (Some "KEY") (mount FetchDemo.initialCells)
           notFound); reflexivity.
Defined.

End ScenarioFacts.

(* ===================================================================== *)
(** * Further properties of useAxiosFetch and loadWithFetch *)
(* ===================================================================== *)

Module BackendPageFacts.
Import Js React AxiosFetch BackendPage.
Import AxiosFetchFacts.

Section WithPayload.
Context {T : Type}.
Implicit Types (h : Hook T) (evs : list (Event T)).

Local Arguments fetchData : simpl never.

Lemma runAtRest_run evs : ∀ h h',
  runAtRest h evs = Some h' → run h evs = Some h'.
Proof.
  induction evs as [|ev evs IH]; intros h h'; simpl; [done|].
  destruct (atRest h ev); [|discriminate].
  destruct (step h ev) as [h1|]; simpl; [apply IH | done].
Qed.

Lemma runAtRest_snoc_inv evs ev : ∀ h h',
  runAtRest h (evs ++ [ev]) = Some h' →
  ∃ h1, runAtRest h evs = Some h1 ∧ atRest h1 ev = true ∧ step h1 ev = Some h'.
Proof.
  induction evs as [|ev0 evs IH]; intros h h'; simpl.
  - destruct (atRest h ev) eqn:Hen; [|discriminate].
    destruct (step h ev) as [h1|] eqn:Hstep; simpl; [|discriminate].
    intros <-%(inj Some). eauto.
  - destruct (atRest h ev0); [|discriminate].
    destruct (step h ev0) as [h1|]; simpl; [apply IH | discriminate].
Qed.

Lemma outcomeOf_snoc evs ev n :
  outcomeOf (evs ++ [ev]) n =
    match outcomeOf evs n with
    | Some outcome => Some outcome
    | None => outcomeOf [ev] n
    end.
Proof.
  induction evs as [|ev0 evs IH]; simpl.
  - by destruct (outcomeOf [ev] n).
  - destruct ev0 as [url | m outcome |]; [done| |done].
    by destruct (decide (m = n)).
Qed.

Lemma singleFlight_init : singleFlight [] (useAxiosFetch T).
Proof. split; simpl; done. Qed.

Lemma singleFlight_step evs ev h h' :
  singleFlight evs h →
  mounted (fiber h) = true →
  atRest h ev = true →
  step h ev = Some h' →
  mounted (fiber h') = true →
  singleFlight (evs ++ [ev]) h'.
Proof.
  intros [Hgone Hload Hrest] Hm Hen Hstep Hm'.
  destruct ev as [url | m outcome |].
  - (* a call: the flag was clear, so nothing was on its way *)
    cbn [atRest] in Hen. apply negb_true_iff in Hen.
    destruct (Hrest Hen) as [Hempty _].
    destruct (returned_Call _ _ _ Hm Hstep) as (_ & Hc & Hin & Hiss).
    split; rewrite ?Hc, ?Hin, ?Hiss, ?Hempty; cbn [isLoading error].
    + intros n outcome. rewrite outcomeOf_snoc. simpl.
      destruct (outcomeOf evs n) as [o|] eqn:Ho; [|done].
      intros _. destruct (Hgone _ _ Ho) as [_ Hlt].
      split; [|lia]. apply lookup_insert_None. split; [done|lia].
    + intros _. split; [done|]. exists (issued h), url.
      split; [done|]. apply insert_empty.
    + done.
  - (* a delivery: it is the one request on its way *)
    pose proof Hstep as (url & Hurl & _)%step_Settle_inv.
    destruct (isLoading (returned h)) eqn:Hl.
    2:{ destruct (Hrest eq_refl) as [Hempty _]. by rewrite Hempty in Hurl. }
    destruct (Hload eq_refl) as (Herr & n & url' & Hn & Hone).
    rewrite Hone in Hurl. apply lookup_singleton_Some in Hurl as [<- <-].
    destruct (returned_Settle _ _ _ _ Hm Hstep) as (_ & Hc & Hin & Hiss).
    assert (outcomeOf evs n = None) as Hfresh.
    { destruct (outcomeOf evs n) as [o|] eqn:Ho; [|done].
      destruct (Hgone _ _ Ho) as [Hnone _].
      by rewrite Hone, lookup_singleton_eq in Hnone. }
    assert (inflight h' = ∅) as Hempty'.
    { rewrite Hin, Hone. apply delete_singleton_eq. }
    split; rewrite ?Hempty', ?Hiss, ?Hn.
    + intros k o. rewrite outcomeOf_snoc. simpl.
      destruct (outcomeOf evs k) as [o'|] eqn:Ho.
      * intros _. destruct (Hgone _ _ Ho) as [_ Hlt]. split; [done|lia].
      * destruct (decide (n = k)) as [<-|]; [|done]. intros _. split; [done|lia].
    + rewrite Hc. done.
    + intros _. split; [done|]. exists outcome. split.
      * rewrite outcomeOf_snoc, Hfresh. simpl. by rewrite decide_True.
      * unfold observe. rewrite Hc, Herr. by destruct outcome.
  - apply (inj Some) in Hstep as <-. done.
Qed.

Lemma singleFlight_runAtRest evs : ∀ h,
  runAtRest (useAxiosFetch T) evs = Some h →
  mounted (fiber h) = true →
  singleFlight evs h.
Proof.
  induction evs as [|ev evs IH] using rev_ind; intros h.
  - intros <-%(inj Some) _. apply singleFlight_init.
  - intros (h1 & Hrun & Hen & Hstep)%runAtRest_snoc_inv Hm.
    pose proof (step_mounted _ _ _ Hstep Hm) as Hm1.
    eapply singleFlight_step; eauto.
Qed.

(** X1.  In a run in which every call of [fetchData] is made at rest
    (while the loading flag is clear), a mounted hook has at most one
    request on its way, and it has one, the one begun last, exactly
    while the loading flag is set. *)
Theorem single_request_at_rest evs h :
  runAtRest (useAxiosFetch T) evs = Some h →
  mounted (fiber h) = true →
  size (inflight h) ≤ 1
  ∧ (isLoading (returned h) = true ↔ inflight h ≠ ∅)
  ∧ (isLoading (returned h) = true →
     ∃ url, inflight h = {[pred (issued h) := url]}).
Proof.
  intros Hrun Hm.
  destruct (singleFlight_runAtRest _ _ Hrun Hm) as [_ Hload Hrest].
  destruct (isLoading (returned h)) eqn:Hl.
  - destruct (Hload eq_refl) as (_ & n & url & Hn & Hone).
    rewrite Hone, Hn. split_and!.
    + rewrite map_size_singleton. lia.
    + split; [intros _; apply map_non_empty_singleton | done].
    + intros _. by exists url.
  - destruct (Hrest eq_refl) as [Hempty _]. rewrite Hempty. split_and!.
    + rewrite map_size_empty. lia.
    + split; [done | by intros []].
    + done.
Qed.

(** X2.  In a run in which every call of [fetchData] is made at rest,
    once nothing is on its way the view of a mounted hook is exactly
    the outcome of the request that was begun last: the ordering that
    fails for overlapping calls holds when calls do not overlap. *)
Theorem latest_shows_at_rest evs h latest :
  runAtRest (useAxiosFetch T) evs = Some h →
  mounted (fiber h) = true →
  inflight h = ∅ →
  issued h = S latest →
  ∃ outcome,
    outcomeOf evs latest = Some outcome
    ∧ observe h = applied outcome
    ∧ reflects (observe h) outcome.
Proof.
  intros Hrun Hm Hempty Hiss.
  destruct (singleFlight_runAtRest _ _ Hrun Hm) as [_ Hload Hrest].
  destruct (isLoading (returned h)) eqn:Hl.
  - destruct (Hload eq_refl) as (_ & n & url & _ & Hone).
    rewrite Hempty in Hone. symmetry in Hone.
    by apply map_non_empty_singleton in Hone.
  - destruct (Hrest eq_refl) as [_ Hview]. rewrite Hiss in Hview.
    destruct Hview as (outcome & Hout & Hobs).
    exists outcome. split_and!; [done..|].
    rewrite Hobs. by destruct outcome.
Qed.

(** Along every run no error is stored while the flag is set. *)
Lemma run_loading_without_error evs h :
  run (useAxiosFetch T) evs = Some h →
  isLoading (returned h) = true → error (returned h) = None.
Proof.
  intros Hrun.
  pose proof (trun_erase evs (traced (useAxiosFetch T))) as Herase.
  cbn [traced hook] in Herase. rewrite Hrun in Herase.
  destruct (trun (traced (useAxiosFetch T)) evs) as [t|] eqn:Htrun; [|done].
  apply (inj Some) in Herase as <-.
  apply coherent_run in Htrun; [|apply coherent_init].
  apply Htrun.
Qed.

(** X3.  After every sequence of calls and deliveries, also with
    overlapping requests, the section of a component that is still
    mounted shows exactly one of its four notes: never two at once and
    never none. *)
Theorem screen_shows_one_note evs h :
  run (useAxiosFetch T) evs = Some h →
  mounted (fiber h) = true →
  ∃ note, rendered (returned h) = [note].
Proof.
  intros Hrun _. pose proof (run_loading_without_error _ _ Hrun) as Hle.
  unfold rendered. destruct (returned h) as [d l e]. cbn [data isLoading error] in *.
  destruct l.
  - rewrite Hle by done. simpl. eauto.
  - destruct (truthy e); simpl; [eauto|]. destruct d; eauto.
Qed.

(** X4.  A rejection that has been delivered shows as the error note
    only if its message is not empty: for an [Error] with an empty
    message the section shows the no-data note although the error cell
    is set, and for a thrown value that is no [Error] it shows
    "Unbekannter Fehler". *)
Theorem rejection_on_screen h attempt err h' :
  mounted (fiber h) = true →
  step h (Settle attempt (Rejected err)) = Some h' →
  error (returned h') = Some (shownMessage err)
  ∧ rendered (returned h') =
      (if String.eqb (shownMessage err) ""
       then [NoDataNote]
       else [ErrorNote (shownMessage err)])
  ∧ (instanceofError err = false →
     rendered (returned h') = [ErrorNote "Unbekannter Fehler"]).
Proof.
  intros Hm Hstep.
  destruct (returned_Settle _ _ _ _ Hm Hstep) as (_ & Hc & _).
  rewrite Hc. unfold rendered. cbn [data isLoading error payload truthy].
  split_and!; [done| |].
  - by destruct (String.eqb (shownMessage err) "").
  - intros Hne. unfold shownMessage. by rewrite Hne.
Qed.

(** X5.  When a request is begun while an older one is on its way, the
    older one is then rejected and the newer one fulfilled, the payload
    of the newer one is stored but the section goes on showing the
    error of the older one and not the card. *)
Theorem stale_error_hides_success h url older err response h1 h2 h3 :
  mounted (fiber h) = true →
  step h (Call url) = Some h1 →
  step h1 (Settle older (Rejected err)) = Some h2 →
  step h2 (Settle (issued h) (Fulfilled response)) = Some h3 →
  shownMessage err ≠ "" →
  older ≠ issued h
  ∧ data (returned h3) = Some (response_data response)
  ∧ rendered (returned h3) = [ErrorNote (shownMessage err)]
  ∧ Resource.status (observe h3) = Resource.Failed.
Proof.
  intros Hm Hcall Hrej Hful Hne.
  destruct (returned_Call _ _ _ Hm Hcall) as (Hm1 & _ & _ & _).
  destruct (returned_Settle _ _ _ _ Hm1 Hrej) as (Hm2 & Hc2 & Hin2 & _).
  destruct (returned_Settle _ _ _ _ Hm2 Hful) as (_ & Hc3 & _).
  split.
  { intros ->. apply step_Settle_inv in Hful as (u & Hu & _).
    by rewrite Hin2, lookup_delete_eq in Hu. }
  unfold observe. rewrite Hc3, Hc2. unfold rendered.
  cbn [data isLoading error payload truthy].
  apply String.eqb_neq in Hne. rewrite Hne. done.
Qed.

End WithPayload.

(** ** The first section: loadWithFetch *)

Import FetchDemo.

(** What the continuation of [loadWithFetch] leaves in the cells of a
    mounted component, for everything [fetch] can settle with. *)
Lemma loadWithFetch_after apiKey f settled :
  mounted f = true →
  exec (after_await (loadWithFetch apiKey) settled) f =
    {| mounted := true;
       cells :=
         let failedWith err :=
           {| apodFetch := None;
              isLoadingFetch := false;
              errorFetch := Some (fetchErrorShown err) |} in
         match settled with
         | Rejected err => failedWith err
         | Fulfilled response =>
             if ok response then
               match json response with
               | Fulfilled parsed =>
                   {| apodFetch := Some parsed;
                      isLoadingFetch := false;
                      errorFetch := errorFetch (cells f) |}
               | Rejected err => failedWith err
               end
             else
               failedWith
                 (ErrorObject ("HTTP-Fehler: " ++ decimal (status response)))
         end |}.
Proof.
  destruct f as [[] c]; [intros _ | discriminate].
  destruct settled as [response | err]; [|reflexivity].
  unfold exec, loadWithFetch, after_await, try_catch_finally. cbn.
  unfold mbind, stmt_bind. cbn.
  destruct (ok response); cbn; [|reflexivity].
  destruct (json response) as [parsed | err]; reflexivity.
Qed.

Lemma loadWithFetch_completes apiKey f settled :
  completion (after_await (loadWithFetch apiKey) settled) f = Normal tt.
Proof.
  destruct settled as [response | err]; [|by destruct f as [[] c]].
  unfold completion, loadWithFetch, after_await, try_catch_finally. cbn.
  unfold mbind, stmt_bind. cbn.
  destruct (ok response); cbn; [|by destruct f as [[] c]].
  destruct (json response) as [parsed | err]; by destruct f as [[] c].
Qed.

Lemma fetchErrorShown_truthy err : truthy (Some (fetchErrorShown err)) = true.
Proof. reflexivity. Qed.

(** X6.  A call of [loadWithFetch] followed by a response with a code
    from 200 to 299 whose body parses shows exactly the parsed APOD:
    the view is {value, Succeeded, no error} and the section shows the
    card. *)
Theorem loadWithFetch_success apiKey f response parsed :
  mounted f = true →
  ok response = true →
  json response = Fulfilled parsed →
  let started := exec (before_await (loadWithFetch apiKey)) f in
  let settled :=
    exec (after_await (loadWithFetch apiKey) (Fulfilled response)) started in
  FetchDemo.observe settled =
    {| Resource.value := Some parsed;
       Resource.status := Resource.Succeeded;
       Resource.error := None |}
  ∧ renderedFetch (cells settled) = [ApodCard parsed].
Proof.
  intros Hm Hok Hjson. cbn zeta.
  rewrite FetchDemoFacts.loadWithFetch_before by done.
  rewrite loadWithFetch_after by done. rewrite Hok, Hjson. done.
Qed.

(** X7.  When [fetch] itself is rejected, or when the response is fine
    but its body does not parse, the value is cleared and the error is
    the text of what was thrown behind the prefix "Fehler beim Laden
    (fetch): "; as the prefix is never empty, the section always shows
    the error note. *)
Theorem loadWithFetch_failure apiKey f settled err :
  mounted f = true →
  (settled = Rejected err
   ∨ ∃ response, settled = Fulfilled response
                 ∧ ok response = true
                 ∧ json response = Rejected err) →
  let after := exec (after_await (loadWithFetch apiKey) settled) f in
  FetchDemo.observe after =
    {| Resource.value := None;
       Resource.status := Resource.Failed;
       Resource.error := Some (fetchErrorShown err) |}
  ∧ renderedFetch (cells after) = [ErrorNote (fetchErrorShown err)].
Proof.
  intros Hm Hcase. cbn zeta. rewrite loadWithFetch_after by done.
  destruct Hcase as [-> | (response & -> & Hok & Hjson)];
    [|rewrite Hok, Hjson]; done.
Qed.

(** X8.  However [fetch] settles, the continuation of [loadWithFetch]
    ends without a throw with the loading flag clear, and it either
    stores a parsed body and leaves the error as it was, or clears the
    value and stores an error text that the section shows. *)
Theorem loadWithFetch_every_outcome apiKey f settled :
  mounted f = true →
  let after := exec (after_await (loadWithFetch apiKey) settled) f in
  completion (after_await (loadWithFetch apiKey) settled) f = Normal tt
  ∧ isLoadingFetch (cells after) = false
  ∧ ((∃ response parsed,
        settled = Fulfilled response
        ∧ ok response = true
        ∧ json response = Fulfilled parsed
        ∧ apodFetch (cells after) = Some parsed
        ∧ errorFetch (cells after) = errorFetch (cells f))
     ∨ (apodFetch (cells after) = None
        ∧ ∃ err,
            errorFetch (cells after) = Some (fetchErrorShown err)
            ∧ renderedFetch (cells after) = [ErrorNote (fetchErrorShown err)])).
Proof.
  intros Hm. cbn zeta. split; [apply loadWithFetch_completes|].
  rewrite loadWithFetch_after by done.
  destruct settled as [response | err]; cbn [cells].
  - destruct (ok response) eqn:Hok.
    + destruct (json response) as [parsed | err] eqn:Hjson.
      * split; [done|]. left. by exists response, parsed.
      * split; [done|]. right. split; [done|]. by exists err.
    + split; [done|]. right. split; [done|]. by eexists.
  - split; [done|]. right. split; [done|]. by exists err.
Qed.

End BackendPageFacts.

(* ===================================================================== *)
(** * Properties of ThemeProvider in the demo and of the counter slice *)
(* ===================================================================== *)

Module ContextReduxPageFacts.
Import Js ThemeContext ContextReduxPage.

Lemma clickToggle_twice current : clickToggle (clickToggle current) = current.
Proof. by destruct current. Qed.

Lemma clicks_parity n :
  Nat.iter n clickToggle initialTheme = if Nat.even n then light else dark.
Proof.
  induction n as [|n IH]; [done|].
  rewrite Nat.even_succ, <- Nat.negb_even, Nat.iter_succ, IH.
  by destruct (Nat.even n).
Qed.

(** X9.  In the demo as it is composed, [useTheme] in the layout never
    throws: after any number of clicks on the toggle it returns a value
    whose theme is light after an even number of clicks and dark after
    an odd one, and whose [toggleTheme] turns light into dark and dark
    into light; two clicks restore the theme. *)
Theorem layout_theme_after_clicks n :
  (∃ ctx,
     useTheme (layoutAncestors (Nat.iter n clickToggle initialTheme)) = Normal ctx
     ∧ theme ctx = (if Nat.even n then light else dark)
     ∧ toggleTheme ctx light = dark
     ∧ toggleTheme ctx dark = light)
  ∧ Nat.iter (n + 2) clickToggle initialTheme = Nat.iter n clickToggle initialTheme.
Proof.
  split.
  - rewrite clicks_parity. eexists. split; [reflexivity|]. done.
  - rewrite Nat.add_comm. cbn [plus]. rewrite !Nat.iter_succ.
    apply clickToggle_twice.
Qed.

Lemma isSafeInteger_true z :
  (Z.abs z ≤ maxSafeInteger)%Z → isSafeInteger z = true.
Proof. intros H. by apply Z.leb_le. Qed.

Lemma add_safe a b :
  (Z.abs a + Z.abs b ≤ maxSafeInteger)%Z → add a b = Some (a + b)%Z.
Proof.
  intros H. unfold add.
  rewrite !isSafeInteger_true by lia. done.
Qed.

Lemma subtract_safe a b :
  (Z.abs a + Z.abs b ≤ maxSafeInteger)%Z → subtract a b = Some (a - b)%Z.
Proof.
  intros H. unfold subtract.
  rewrite !isSafeInteger_true by lia. done.
Qed.

Lemma reducer_safe state action :
  (Z.abs (value state) + Z.abs (delta action) ≤ maxSafeInteger)%Z →
  reducer state action = Some {| value := value state + delta action |}.
Proof.
  intros H. destruct action as [| |payload]; simpl in *.
  - by rewrite add_safe.
  - by rewrite subtract_safe.
  - by rewrite add_safe.
Qed.

Lemma magnitude_nonneg actions : (0 ≤ magnitude actions)%Z.
Proof. induction actions; simpl; lia. Qed.

Lemma dispatched_safe actions : ∀ state,
  (Z.abs (value state) + magnitude actions ≤ maxSafeInteger)%Z →
  dispatched actions state = Some {| value := value state + total actions |}.
Proof.
  induction actions as [|action actions IH]; intros state; simpl.
  - intros _. destruct state as [v]. simpl. do 2 f_equal. lia.
  - intros H. pose proof (magnitude_nonneg actions).
    rewrite reducer_safe by lia. simpl.
    rewrite IH by (simpl; lia). simpl. do 2 f_equal. lia.
Qed.

Lemma total_Permutation actions1 actions2 :
  actions1 ≡ₚ actions2 → total actions1 = total actions2.
Proof. induction 1; simpl; lia. Qed.

Lemma magnitude_Permutation actions1 actions2 :
  actions1 ≡ₚ actions2 → magnitude actions1 = magnitude actions2.
Proof. induction 1; simpl; lia. Qed.

(** X10.  As long as the absolute value of the counter plus the
    absolute values of what the actions add stays a safe integer, the
    counter after a list of dispatches is the value before plus the sum
    of what the actions add, and dispatching the same actions in
    another order ends in the same state. *)
Theorem counter_order_irrelevant actions1 actions2 state :
  actions1 ≡ₚ actions2 →
  (Z.abs (value state) + magnitude actions1 ≤ maxSafeInteger)%Z →
  dispatched actions1 state = Some {| value := value state + total actions1 |}
  ∧ dispatched actions2 state = dispatched actions1 state.
Proof.
  intros Hperm Hsafe.
  rewrite !dispatched_safe;
    rewrite <- ?(magnitude_Permutation _ _ Hperm); [|done..].
  by rewrite (total_Permutation _ _ Hperm).
Qed.

Lemma clicks_bounds clicks :
  (- Z.of_nat (length clicks) ≤ total (map onClick clicks)
   ≤ 5 * Z.of_nat (length clicks))%Z
  ∧ (magnitude (map onClick clicks) ≤ 5 * Z.of_nat (length clicks))%Z.
Proof.
  induction clicks as [|b clicks IH]; simpl; [lia|].
  destruct b; simpl; lia.
Qed.

(** X11.  After k clicks on the three buttons of the counter, starting
    from the initial state and with 5k a safe integer, the value is the
    sum of what the clicks add and lies between -k and 5k. *)
Theorem counter_after_clicks_bounds clicks :
  (5 * Z.of_nat (length clicks) ≤ maxSafeInteger)%Z →
  ∃ state,
    dispatched (map onClick clicks) initialCounterState = Some state
    ∧ value state = total (map onClick clicks)
    ∧ (- Z.of_nat (length clicks) ≤ value state ≤ 5 * Z.of_nat (length clicks))%Z.
Proof.
  intros Hsafe. destruct (clicks_bounds clicks) as [Htotal Hmag].
  eexists. split; [apply dispatched_safe; simpl; lia|]. simpl. done.
Qed.

End ContextReduxPageFacts.

(* ===================================================================== *)
(** * The page properties at the example runs *)
(* ===================================================================== *)

Module PageScenarioFacts.
Import Js React AxiosFetch BackendPage ContextReduxPage Scenario PageScenario.
Import BackendPageFacts ContextReduxPageFacts.

(** X1 while the first request is on its way. *)
Lemma single_request_at_rest_witness :
  runAtRest (useAxiosFetch string) [Call "u1"] = Some (hookAfter [Call "u1"])
  ∧ mounted (fiber (hookAfter [Call "u1"])) = true
  ∧ size (inflight (hookAfter [Call "u1"])) ≤ 1
  ∧ (isLoading (returned (hookAfter [Call "u1"])) = true
     ↔ inflight (hookAfter [Call "u1"]) ≠ ∅).
Proof.
  assert (runAtRest (useAxiosFetch string) [Call "u1"] = Some (hookAfter [Call "u1"]))
    as Hrun by (vm_compute; reflexivity).
  assert (mounted (fiber (hookAfter [Call "u1"])) = true) as Hm by reflexivity.
  split_and!; [exact Hrun | exact Hm | |];
    apply (single_request_at_rest _ _ Hrun Hm).
Defined.

(** X2 after a load and a rejected reload. *)
Lemma latest_shows_at_rest_witness :
  runAtRest (useAxiosFetch string) reloaded = Some (hookAfter reloaded)
  ∧ mounted (fiber (hookAfter reloaded)) = true
  ∧ inflight (hookAfter reloaded) = ∅
  ∧ issued (hookAfter reloaded) = 2
  ∧ ∃ outcome,
      outcomeOf reloaded 1 = Some outcome
      ∧ observe (hookAfter reloaded) = applied outcome
      ∧ reflects (observe (hookAfter reloaded)) outcome.
Proof.
  assert (runAtRest (useAxiosFetch string) reloaded = Some (hookAfter reloaded))
    as Hrun by (vm_compute; reflexivity).
  assert (mounted (fiber (hookAfter reloaded)) = true) as Hm by reflexivity.
  assert (inflight (hookAfter reloaded) = ∅) as He by (vm_compute; reflexivity).
  assert (issued (hookAfter reloaded) = 2) as Hi by reflexivity.
  split_and!; [exact Hrun | exact Hm | exact He | exact Hi |].
  apply (latest_shows_at_rest reloaded (hookAfter reloaded) 1 Hrun Hm He Hi).
Defined.

(** X3 at the run that leaves a value and an error in the cells. *)
Lemma screen_shows_one_note_witness :
  run (useAxiosFetch string) olderFailsFirst = Some (hookAfter olderFailsFirst)
  ∧ mounted (fiber (hookAfter olderFailsFirst)) = true
  ∧ ∃ note, rendered (returned (hookAfter olderFailsFirst)) = [note].
Proof.
  assert (run (useAxiosFetch string) olderFailsFirst = Some (hookAfter olderFailsFirst))
    as Hrun by (vm_compute; reflexivity).
  split_and!; [exact Hrun | reflexivity |].
  apply (screen_shows_one_note olderFailsFirst (hookAfter olderFailsFirst) Hrun).
  reflexivity.
Defined.

(** X4 at a rejection with an [Error] that has no message. *)
Lemma rejection_on_screen_witness :
  mounted (fiber (hookAfter [Call "u1"])) = true
  ∧ step (hookAfter [Call "u1"]) (Settle 0 (Rejected silentError))
    = Some (hookAfter [Call "u1"; Settle 0 (Rejected silentError)])
  ∧ error (returned (hookAfter [Call "u1"; Settle 0 (Rejected silentError)]))
    = Some ""
  ∧ rendered (returned (hookAfter [Call "u1"; Settle 0 (Rejected silentError)]))
    = [NoDataNote].
Proof.
  assert (mounted (fiber (hookAfter [Call "u1"])) = true) as Hm by reflexivity.
  assert (step (hookAfter [Call "u1"]) (Settle 0 (Rejected silentError))
          = Some (hookAfter [Call "u1"; Settle 0 (Rejected silentError)]))
    as Hstep by (vm_compute; reflexivity).
  split_and!; [exact Hm | exact Hstep | |];
    apply (rejection_on_screen _ _ _ _ Hm Hstep).
Defined.

(** X5 at the change from "A" to "B" in which "A" fails first. *)
Lemma stale_error_hides_success_witness :
  mounted (fiber (hookAfter [Call "A"])) = true
  ∧ step (hookAfter [Call "A"]) (Call "B") = Some (hookAfter [Call "A"; Call "B"])
  ∧ step (hookAfter [Call "A"; Call "B"]) (Settle 0 (Rejected networkError))
    = Some (hookAfter [Call "A"; Call "B"; Settle 0 (Rejected networkError)])
  ∧ step (hookAfter [Call "A"; Call "B"; Settle 0 (Rejected networkError)])
         (Settle 1 (Fulfilled (respond "b")))
    = Some (hookAfter olderFailsFirst)
  ∧ shownMessage networkError ≠ ""
  ∧ data (returned (hookAfter olderFailsFirst)) = Some "b"
  ∧ rendered (returned (hookAfter olderFailsFirst)) = [ErrorNote "Network Error"].
Proof.
  assert (mounted (fiber (hookAfter [Call "A"])) = true) as Hm by reflexivity.
  assert (step (hookAfter [Call "A"]) (Call "B") = Some (hookAfter [Call "A"; Call "B"]))
    as H1 by (vm_compute; reflexivity).
  assert (step (hookAfter [Call "A"; Call "B"]) (Settle 0 (Rejected networkError))
          = Some (hookAfter [Call "A"; Call "B"; Settle 0 (Rejected networkError)]))
    as H2 by (vm_compute; reflexivity).
  assert (step (hookAfter [Call "A"; Call "B"; Settle 0 (Rejected networkError)])
               (Settle 1 (Fulfilled (respond "b")))
          = Some (hookAfter olderFailsFirst))
    as H3 by (vm_compute; reflexivity).
  assert (shownMessage networkError ≠ "") as Hne by discriminate.
  split_and!; [exact Hm | exact H1 | exact H2 | exact H3 | exact Hne | |];
    apply (stale_error_hides_success _ _ _ _ _ _ _ _ Hm H1 H2 H3 Hne).
Defined.

(** X6 at a 200 whose body parses. *)
Lemma loadWithFetch_success_witness :
  mounted (mount FetchDemo.initialCells) = true
  ∧ FetchDemo.ok found = true
  ∧ FetchDemo.json found = Fulfilled apod
  ∧ renderedFetch
      (cells (exec (after_await (FetchDemo.loadWithFetch (Some "KEY")) (Fulfilled found))
                   fetchStarted))
    = [ApodCard apod].
Proof.
  split_and!; [reflexivity..|].
  apply (loadWithFetch_success (Some "KEY") (mount FetchDemo.initialCells) found apod);
    reflexivity.
Defined.

(** X7 at a 200 whose body is no JSON. *)
Lemma loadWithFetch_failure_witness :
  mounted fetchStarted = true
  ∧ (∃ response, Fulfilled garbled = Fulfilled response
                 ∧ FetchDemo.ok response = true
                 ∧ FetchDemo.json response
                   = Rejected (ErrorObject "Unexpected token < in JSON"))
  ∧ renderedFetch
      (cells (exec (after_await (FetchDemo.loadWithFetch (Some "KEY")) (Fulfilled garbled))
                   fetchStarted))
    = [ErrorNote "Fehler beim Laden (fetch): Unexpected token < in JSON"].
Proof.
  assert (∃ response, Fulfilled garbled = Fulfilled response
                      ∧ FetchDemo.ok response = true
                      ∧ FetchDemo.json response
                        = Rejected (ErrorObject "Unexpected token < in JSON"))
    as Hcase by (exists garbled; split_and!; reflexivity).
  split_and!; [reflexivity | exact Hcase |].
  apply (loadWithFetch_failure (Some "KEY") fetchStarted (Fulfilled garbled)
           (ErrorObject "Unexpected token < in JSON") eq_refl (or_intror Hcase)).
Defined.

(** X8 at a rejection of [fetch] with a value that is no [Error]. *)
Lemma loadWithFetch_every_outcome_witness :
  mounted fetchStarted = true
  ∧ FetchDemo.isLoadingFetch
      (cells (exec (after_await (FetchDemo.loadWithFetch (Some "KEY"))
                                (Rejected (OtherValue "42")))
                   fetchStarted))
    = false.
Proof.
  split; [reflexivity|].
  apply (loadWithFetch_every_outcome (Some "KEY") fetchStarted
           (Rejected (OtherValue "42")) eq_refl).
Defined.

(** X10 at two clicks in both orders. *)
Lemma counter_order_irrelevant_witness :
  [increment; incrementBy 5] ≡ₚ [incrementBy 5; increment]
  ∧ (Z.abs (value initialCounterState) + magnitude [increment; incrementBy 5]
     ≤ maxSafeInteger)%Z
  ∧ dispatched [increment; incrementBy 5] initialCounterState
    = Some {| value := 6 |}
  ∧ dispatched [incrementBy 5; increment] initialCounterState
    = dispatched [increment; incrementBy 5] initialCounterState.
Proof.
  assert ([increment; incrementBy 5] ≡ₚ [incrementBy 5; increment]) as Hperm
    by apply perm_swap.
  assert (Z.abs (value initialCounterState) + magnitude [increment; incrementBy 5]
          ≤ maxSafeInteger)%Z as Hsafe by (vm_compute; discriminate).
  split_and!; [exact Hperm | exact Hsafe | |];
    apply (counter_order_irrelevant _ _ initialCounterState Hperm Hsafe).
Defined.

(** X11 at the three buttons clicked once each. *)
Lemma counter_after_clicks_bounds_witness :
  (5 * Z.of_nat (length [MinusOne; PlusOne; PlusFive]) ≤ maxSafeInteger)%Z
  ∧ ∃ state,
      dispatched (map onClick [MinusOne; PlusOne; PlusFive]) initialCounterState
        = Some state
      ∧ value state = total (map onClick [MinusOne; PlusOne; PlusFive])
      ∧ (- Z.of_nat (length [MinusOne; PlusOne; PlusFive]) ≤ value state
         ≤ 5 * Z.of_nat (length [MinusOne; PlusOne; PlusFive]))%Z.
Proof.
  assert (5 * Z.of_nat (length [MinusOne; PlusOne; PlusFive]) ≤ maxSafeInteger)%Z
    as Hsafe by (vm_compute; discriminate).
  split; [exact Hsafe|].
  apply (counter_after_clicks_bounds [MinusOne; PlusOne; PlusFive] Hsafe).
Defined.

End PageScenarioFacts.
